(** * datasets_turntaking: data module, Switchboard builder and the
      transcript-to-VAD windowing pipeline

    A shallow embedding of

    - [datasets_turntaking/dialog_audio_dm.py]
      ([DialogAudioDM._dataset], [DialogAudioDM.collate_fn]),
    - [datasets_turntaking/dataset/spoken_dialog/switchboard/switchboard.py]
      ([Swithchboard.generate]),

    together with models, written from the specification, of components
    whose code lives in other files of the repository: the VAD extractor and
    dialog compactor of [switchboard/utils], and the sliding-window engine
    and channel flip of [dialog_audio_dataset].

    Times are seconds.  Python floats are idealised as rationals [Q];
    Python dictionaries with string keys are [gmap string _]; a raised
    exception is the [Raise] branch of [result]. *)

From Stdlib Require Import Ascii String Sorted QArith Qminmax Qround Lqa.
From stdpp Require Import gmap strings list fin_maps.

Set Warnings "-register-all".
Open Scope string_scope.
Open Scope list_scope.

(* ===================================================================== *)
(** * Python values and exceptions *)
(* ===================================================================== *)

Module Py.

(** The exceptions the embedded code can raise. *)
Inductive exn : Type :=
| KeyError (key : string)      (* [d[k]] with [k] not in [d] *)
| RuntimeError (msg : string)  (* raised by [torch.cat] *)
| TypeError (msg : string).    (* [torch.cat] given a non-tensor *)

Inductive result (A : Type) : Type :=
| Ok (a : A)
| Raise (e : exn).

Arguments Ok {A} a.
Arguments Raise {A} e.

Definition bind {A B : Type} (m : result A) (k : A → result B) : result B :=
  match m with
  | Ok a => k a
  | Raise e => Raise e
  end.

Definition raises {A : Type} (m : result A) : Prop :=
  match m with
  | Ok _ => False
  | Raise _ => True
  end.

(** [d[k]]: the value stored under [k], or [KeyError]. *)
Definition getitem {V : Type} (d : gmap string V) (k : string) : result V :=
  match d !! k with
  | Some v => Ok v
  | None => Raise (KeyError k)
  end.

End Py.

(** [result] is an error monad; [x ← m; k] is stdpp's notation for its
    bind. *)
#[global] Instance result_ret : MRet Py.result := @Py.Ok.
#[global] Instance result_bind : MBind Py.result :=
  λ A B (k : A → Py.result B) (m : Py.result A), Py.bind m k.

(* ===================================================================== *)
(** * Tensors and [torch.cat] *)
(* ===================================================================== *)

Module Torch.

(** A dense tensor: its shape and its entries in row-major order. *)
Record tensor : Type := Tensor {
  shape : list nat;
  data : list Q
}.

(** The values a per-example record or a batch holds under its keys. *)
Inductive value : Type :=
| VTensor (t : tensor)
| VStr (s : string)
| VList (l : list value).

(** [torch.cat] takes a sequence of tensors: anything else is a
    [TypeError]. *)
Fixpoint as_tensors (vs : list value) : Py.result (list tensor) :=
  match vs with
  | [] => Py.Ok []
  | VTensor t :: vs' => ts ← as_tensors vs' ; Py.Ok (t :: ts)
  | _ :: _ => Py.Raise (Py.TypeError "expected Tensor as element of argument tensors")
  end.

(** Appending [t] below what has been accumulated, [acc.1] rows of shape
    [tail] with entries [acc.2]: all dimensions of [t] but the first must
    be [tail]. *)
Definition cat_step (tail : list nat) (acc : nat * list Q) (t : tensor)
  : Py.result (nat * list Q) :=
  match shape t with
  | n :: tail' =>
      if bool_decide (tail' = tail)
      then Py.Ok ((acc.1 + n)%nat, acc.2 ++ data t)
      else Py.Raise (Py.RuntimeError "Sizes of tensors must match except in dimension 0")
  | [] => Py.Raise (Py.RuntimeError "zero-dimensional tensor cannot be concatenated")
  end.

Fixpoint cat_loop (tail : list nat) (acc : nat * list Q) (ts : list tensor)
  : Py.result (nat * list Q) :=
  match ts with
  | [] => Py.Ok acc
  | t :: ts' => acc' ← cat_step tail acc t ; cat_loop tail acc' ts'
  end.

(** [torch.cat(tensors)] along dimension 0: the operands must have at
    least one dimension and agree in all dimensions but the first.  In
    row-major order the entries of the result are the entries of the
    operands, one operand after the other.  (PyTorch also skips operands of
    shape [(0,)], a legacy rule that is left out here; and for an empty
    list the class of the exception depends on the PyTorch release,
    [RuntimeError] in most and [ValueError] in recent ones: what is used
    below is only that an exception is raised.) *)
Definition cat_tensors (ts : list tensor) : Py.result tensor :=
  match ts with
  | [] => Py.Raise (Py.RuntimeError "torch.cat(): expected a non-empty list of Tensors")
  | t :: _ =>
      match shape t with
      | [] => Py.Raise (Py.RuntimeError "zero-dimensional tensor cannot be concatenated")
      | _ :: tail =>
          r ← cat_loop tail (0%nat, []) ts ;
          Py.Ok (Tensor (r.1 :: tail) r.2)
      end
  end.

Definition cat (vs : list value) : Py.result tensor :=
  ts ← as_tensors vs ; cat_tensors ts.

End Torch.

(* ===================================================================== *)
(** * [DialogAudioDM.collate_fn] *)
(* ===================================================================== *)

Module Collate.
Import Torch.

(** The six lists the loop of [collate_fn] appends to. *)
Record lists : Type := Lists {
  waveforms : list value;
  vad : list value;
  vad_history : list value;
  vad_label : list value;
  dset_names : list value;
  sessions : list value
}.

Definition empty_lists : lists := Lists [] [] [] [] [] [].

(** [if k in b: acc.append(b[k])]. *)
Definition append_if_present (b : gmap string value) (k : string)
    (acc : list value) : list value :=
  match b !! k with
  | Some v => acc ++ [v]
  | None => acc
  end.

(** One iteration of [for b in batch]. *)
Definition loop_body (st : lists) (b : gmap string value) : Py.result lists :=
  w ← Py.getitem b "waveform" ;
  d ← Py.getitem b "dataset" ;
  s ← Py.getitem b "session" ;
  Py.Ok {| waveforms := waveforms st ++ [w];
           dset_names := dset_names st ++ [d];
           sessions := sessions st ++ [s];
           vad := append_if_present b "vad" (vad st);
           vad_history := append_if_present b "vad_history" (vad_history st);
           vad_label := append_if_present b "vad_label" (vad_label st) |}.

Fixpoint loop (st : lists) (batch : list (gmap string value)) : Py.result lists :=
  match batch with
  | [] => Py.Ok st
  | b :: batch' => st' ← loop_body st b ; loop st' batch'
  end.

(** [if len(acc) > 0: ret[k] = torch.cat(acc)]. *)
Definition cat_if_nonempty (k : string) (acc : list value)
    (ret : gmap string value) : Py.result (gmap string value) :=
  match acc with
  | [] => Py.Ok ret
  | _ :: _ => t ← cat acc ; Py.Ok (<[k := VTensor t]> ret)
  end.

Definition collate_fn (batch : list (gmap string value))
  : Py.result (gmap string value) :=
  st ← loop empty_lists batch ;
  w ← cat (waveforms st) ;
  let ret : gmap string value :=
    <["session" := VList (sessions st)]>
      (<["dset_name" := VList (dset_names st)]>
         (<["waveform" := VTensor w]> ∅)) in
  ret ← cat_if_nonempty "vad" (vad st) ret ;
  ret ← cat_if_nonempty "vad_history" (vad_history st) ret ;
  cat_if_nonempty "vad_label" (vad_label st) ret.

(** The optional keys of a per-example record. *)
Definition optional_fields : list string := ["vad"; "vad_history"; "vad_label"].

(** The values stored under [k], over the records that have the key, in
    record order. *)
Definition collect (k : string) (batch : list (gmap string value)) : list value :=
  omap (λ b : gmap string value, b !! k) batch.

(** Some, but not all, records of the batch have key [k]. *)
Definition mixed_presence (k : string) (batch : list (gmap string value)) : Prop :=
  (∃ b, b ∈ batch ∧ is_Some (b !! k)) ∧ (∃ b, b ∈ batch ∧ b !! k = None).

(** A per-example record: it has at least the three mandatory keys. *)
Definition is_record (b : gmap string value) : Prop :=
  is_Some (b !! "waveform") ∧ is_Some (b !! "dataset") ∧ is_Some (b !! "session").

(** Every list [collate_fn] hands to [torch.cat] can be concatenated. *)
Definition concatenable (batch : list (gmap string value)) : Prop :=
  ∀ k, k ∈ "waveform" :: optional_fields →
    collect k batch = [] ∨ ∃ t, cat (collect k batch) = Py.Ok t.

(** The lists of the loop after it has run over [batch] from [st]. *)
Definition extend (st : lists) (batch : list (gmap string value)) : lists :=
  {| waveforms := waveforms st ++ collect "waveform" batch;
     dset_names := dset_names st ++ collect "dataset" batch;
     sessions := sessions st ++ collect "session" batch;
     vad := vad st ++ collect "vad" batch;
     vad_history := vad_history st ++ collect "vad_history" batch;
     vad_label := vad_label st ++ collect "vad_label" batch |}.

(** What an optional key [f] holds in the batch [ret]: nothing when no
    record has the key, and otherwise the concatenation of the values of the
    records that have it. *)
Definition optional_outcome (batch : list (gmap string value))
    (ret : gmap string value) (f : string) : Prop :=
  (collect f batch = [] ∧ ret !! f = None) ∨
  (∃ t, collect f batch ≠ [] ∧ cat (collect f batch) = Py.Ok t ∧
        ret !! f = Some (VTensor t)).

(** A per-example record with the mandatory keys and, when given, a
    [vad_history]. *)
Definition mk_record (w : tensor) (name sess : string) (h : option tensor)
  : gmap string value :=
  let r : gmap string value :=
    <["session" := VStr sess]>
      (<["dataset" := VStr name]> (<["waveform" := VTensor w]> ∅)) in
  match h with
  | Some t => <["vad_history" := VTensor t]> r
  | None => r
  end.

(** Three records of one-second mono audio at 4 Hz; the first and the
    third carry a [vad_history] of four bins, the second does not. *)
Definition batch3 : list (gmap string value) :=
  [ mk_record (Tensor [1; 4]%nat [0; 1; 0; -1]%Q) "switchboard" "sw2001"
      (Some (Tensor [1; 4]%nat [1 # 2; 1 # 2; 1; 0]%Q));
    mk_record (Tensor [1; 4]%nat [1; 1; 0; 0]%Q) "switchboard" "sw2005" None;
    mk_record (Tensor [1; 4]%nat [0; 0; 1; 1]%Q) "switchboard" "sw2008"
      (Some (Tensor [1; 4]%nat [0; 1 # 4; 1; 1]%Q)) ].

(** Two records whose waveforms differ in length: four samples and
    three. *)
Definition ragged_batch : list (gmap string value) :=
  [ mk_record (Tensor [1; 4]%nat [0; 1; 0; -1]%Q) "switchboard" "sw2001" None;
    mk_record (Tensor [1; 3]%nat [1; 1; 0]%Q) "switchboard" "sw2005" None ].

End Collate.

(* ===================================================================== *)
(** * [DialogAudioDM._dataset] and [DialogAudioDM.setup] *)
(* ===================================================================== *)

(** The keyword arguments [_dataset] hands to the [DialogAudioDataset]
    constructor.  The class itself is defined in [dialog_audio_dataset];
    what is embedded here is the call. *)
Module DialogAudioDataset.
Section Args.
Context {HFDataset Transform : Type}.

Record t : Type := Make {
  dataset : HFDataset;
  feature_extractor : option Transform;
  type : string;
  audio_mono : bool;
  audio_duration : Z;
  audio_overlap : Z;
  audio_normalize : bool;
  sample_rate : Z;
  vad_hz : Z;
  vad_horizon_time : Q;
  vad_history : bool;
  vad_history_times : list Z;
  flip_channels : bool;
  flip_probability : Q;
  mask_vad : bool;
  mask_vad_probability : Q;
  transforms : option Transform
}.

End Args.
Arguments t : clear implicits.
End DialogAudioDataset.

Module DialogAudioDM.
Section DM.
Context {HFDataset Transform : Type}.

(** The attributes [__init__] stores on the data module. *)
Record t : Type := Make {
  datasets : list string;
  type : string;
  transforms : option Transform;
  audio_mono : bool;
  audio_duration : Z;
  sample_rate : Z;
  audio_overlap : Z;
  audio_normalize : bool;
  audio_include_ratio : Q;
  audio_context_duration : Z;
  ipu_min_time : Q;
  ipu_pause_time : Q;
  vad : bool;
  vad_hz : Z;
  vad_horizon : Q;
  vad_history : bool;
  vad_history_times : list Z;
  flip_channels : bool;
  flip_probability : Q;
  mask_vad : bool;
  mask_vad_probability : Q;
  batch_size : Z;
  pin_memory : bool;
  num_workers : Z
}.

Definition _dataset (self : t) (dset : HFDataset) (split : string)
  : DialogAudioDataset.t HFDataset Transform :=
  (* Only flip during training... *)
  let flip :=
    if bool_decide (split = "train") then flip_channels self else false in
  {| DialogAudioDataset.dataset := dset;
     DialogAudioDataset.feature_extractor := None;
     DialogAudioDataset.type := type self;
     DialogAudioDataset.audio_mono := audio_mono self;
     DialogAudioDataset.audio_duration := audio_duration self;
     DialogAudioDataset.audio_overlap := audio_overlap self;
     DialogAudioDataset.audio_normalize := audio_normalize self;
     DialogAudioDataset.sample_rate := sample_rate self;
     DialogAudioDataset.vad_hz := vad_hz self;
     DialogAudioDataset.vad_horizon_time := vad_horizon self;
     DialogAudioDataset.vad_history := vad_history self;
     DialogAudioDataset.vad_history_times := vad_history_times self;
     DialogAudioDataset.flip_channels := flip;
     DialogAudioDataset.flip_probability := flip_probability self;
     DialogAudioDataset.mask_vad := mask_vad self;
     DialogAudioDataset.mask_vad_probability := mask_vad_probability self;
     DialogAudioDataset.transforms := transforms self |}.

(** The datasets [setup] stores on the module: [train_dset], [val_dset]
    and [test_dset], each absent until a stage builds it. *)
Record dsets : Type := Dsets {
  train_dset : option (DialogAudioDataset.t HFDataset Transform);
  val_dset : option (DialogAudioDataset.t HFDataset Transform);
  test_dset : option (DialogAudioDataset.t HFDataset Transform)
}.

(** Before [setup] no dataset has been built. *)
Definition unset : dsets := Dsets None None None.

(** [load_spoken_dialog_audio_dataset(datasets=..., split=...)] reads the
    corpora through Hugging Face [datasets]: it is a parameter here. *)
Variable load_spoken_dialog_audio_dataset : list string → string → HFDataset.

(** [stage in (None, s)]. *)
Definition stage_in (stage : option string) (s : string) : bool :=
  match stage with
  | None => true
  | Some s' => bool_decide (s' = s)
  end.

Definition setup (self : t) (stage : option string) (st : dsets) : dsets :=
  let st :=
    if stage_in stage "fit" then
      let train_hf_dataset := load_spoken_dialog_audio_dataset (datasets self) "train" in
      let val_hf_dataset := load_spoken_dialog_audio_dataset (datasets self) "val" in
      {| train_dset := Some (_dataset self train_hf_dataset "train");
         val_dset := Some (_dataset self val_hf_dataset "val");
         test_dset := test_dset st |}
    else st in
  if stage_in stage "test" then
    let test_hf_dataset := load_spoken_dialog_audio_dataset (datasets self) "test" in
    {| train_dset := train_dset st;
       val_dset := val_dset st;
       test_dset := Some (_dataset self test_hf_dataset "test") |}
  else st.

End DM.
Arguments t : clear implicits.
Arguments dsets : clear implicits.
Arguments unset : clear implicits.

(** The data module [__init__] builds from its default arguments for the
    given corpora. *)
Definition defaults (corpora : list string) : t unit :=
  {| datasets := corpora;
     type := "sliding";
     transforms := None;
     audio_mono := true;
     audio_duration := 10;
     sample_rate := 16000;
     audio_overlap := 2;
     audio_normalize := true;
     audio_include_ratio := 4 # 10;
     audio_context_duration := 8;
     ipu_min_time := 1;
     ipu_pause_time := 2 # 10;
     vad := true;
     vad_hz := 50;
     vad_horizon := 2;
     vad_history := false;
     vad_history_times := [60; 30; 10; 5]%Z;
     flip_channels := true;
     flip_probability := 1 # 2;
     mask_vad := false;
     mask_vad_probability := 1 # 2;
     batch_size := 4;
     pin_memory := true;
     num_workers := 0 |}.
End DialogAudioDM.

(* ===================================================================== *)
(** * [os.path.join] and string slicing *)
(* ===================================================================== *)

Module OsPath.

Definition startswith_sep (s : string) : bool :=
  match s with
  | String c _ => bool_decide (c = "/"%char)
  | EmptyString => false
  end.

Fixpoint endswith_sep (s : string) : bool :=
  match s with
  | EmptyString => false
  | String c EmptyString => bool_decide (c = "/"%char)
  | String _ s' => endswith_sep s'
  end.

(** One step of [posixpath.join]: an absolute component restarts the
    path, otherwise it is appended after a separator. *)
Definition join2 (path b : string) : string :=
  if startswith_sep b then b
  else if bool_decide (path = "") || endswith_sep path then path +:+ b
  else path +:+ "/" +:+ b.

Definition join (a : string) (p : list string) : string :=
  foldl join2 a p.

End OsPath.

(** [s[:n]]. *)
Definition py_prefix (n : nat) (s : string) : string := String.substring 0 n s.

(* ===================================================================== *)
(** * [Swithchboard.generate] *)
(* ===================================================================== *)

Module Swithchboard.

(** The attributes [SwitchboardConfig.__init__] stores. *)
Record SwitchboardConfig : Type := Config {
  ext : string;
  root : string;
  min_word_vad_diff : Q;
  remove_restarts : bool;
  train_sessions : list string;
  val_sessions : list string;
  test_sessions : list string
}.

(** What a Python generator did before it stopped: the items it yielded,
    in order, and the exception that ended it, if any. *)
Record run (A : Type) : Type := Run {
  yielded : list A;
  raised : option Py.exn
}.
Arguments Run {A} yielded raised.
Arguments yielded {A} r.
Arguments raised {A} r.

(** [yield x] followed by the rest of the generator. *)
Definition yield_then {A : Type} (x : A) (rest : run A) : run A :=
  Run (x :: yielded rest) (raised rest).

Section Generate.
(** The word-level dialog [load_transcript] returns, the dialog without
    words and the VAD list are the data of [switchboard/utils]; the three
    functions of that file which [generate] calls are parameters. *)
Context {WordDialog Dialog VadList : Type}.
Variable load_transcript : string → string → bool → bool → WordDialog.
Variable extract_vad_list_from_words : WordDialog → Q → VadList.
Variable remove_words_from_dialog : WordDialog → Dialog.

(** The example dictionary yielded for one session. *)
Record example : Type := MkExample {
  session : string;
  dataset : string;
  audio_path : string;
  vad_list : VadList;
  dialog : Dialog
}.

(** The builder: its configuration and the path [_split_generators]
    stored in [extracted_path]. *)
Record builder : Type := Builder {
  cfg : SwitchboardConfig;
  extracted_path : string
}.

(** [generate(self, sessions)], with [sess_2_rel_path] the dictionary read
    from [REL_AUDIO_PATH]. *)
Fixpoint generate_from (self : builder) (sess_2_rel_path : gmap string string)
    (sessions : list string) : run (string * example) :=
  match sessions with
  | [] => Run [] None
  | session :: sessions' =>
      (* [session = str(session)]: the identifiers of the split files are
         strings already *)
      match Py.getitem sess_2_rel_path session with
      | Py.Raise e => Run [] (Some e)
      | Py.Ok rel =>
          let audio_path := OsPath.join (root (cfg self)) [rel +:+ ext (cfg self)] in
          let session_dir :=
            OsPath.join (extracted_path self)
              ["swb_ms98_transcriptions"; py_prefix 2 session; session] in
          let dialog :=
            load_transcript session session_dir true (remove_restarts (cfg self)) in
          let vad := extract_vad_list_from_words dialog (min_word_vad_diff (cfg self)) in
          (* omit words *)
          let dialog := remove_words_from_dialog dialog in
          yield_then
            (session,
             {| session := session;
                dataset := "switchboard";
                audio_path := audio_path;
                vad_list := vad;
                dialog := dialog |})
            (generate_from self sess_2_rel_path sessions')
      end
  end.

(** The directory of a session's transcripts, as [generate] builds it. *)
Definition session_dir_of (self : builder) (session : string) : string :=
  OsPath.join (extracted_path self)
    ["swb_ms98_transcriptions"; py_prefix 2 session; session].

(** The word-level dialog [generate] loads for a session. *)
Definition loaded (self : builder) (session : string) : WordDialog :=
  load_transcript session (session_dir_of self session) true
    (remove_restarts (cfg self)).

(** The item yielded for [s]: keyed by [s], named [s], of the corpus
    ["switchboard"], with an audio path built from the index entry of [s]. *)
Definition item_of (self : builder) (rel : gmap string string) (s : string)
    (item : string * example) : Prop :=
  item.1 = s ∧ session item.2 = s ∧ dataset item.2 = "switchboard" ∧
  ∃ rel_path, rel !! s = Some rel_path ∧
    audio_path item.2
      = OsPath.join (root (cfg self)) [rel_path +:+ ext (cfg self)].

(** [read_json(REL_AUDIO_PATH)] is the first statement of [generate]; the
    file's content is the argument [rel_audio_path]. *)
Definition generate (rel_audio_path : gmap string string) (self : builder)
    (sessions : list string) : run (string * example) :=
  let sess_2_rel_path := rel_audio_path in
  generate_from self sess_2_rel_path sessions.

End Generate.
End Swithchboard.

(* ===================================================================== *)
(** * The data model of the specification (section 3) *)
(* ===================================================================== *)

Definition SpeakerId : Type := nat.

Module Word.
Record t : Type := Make {
  text : string;
  start : Q;
  end_ : Q;
  channel : SpeakerId
}.
End Word.

Module Turn.
Record t : Type := Make {
  channel : SpeakerId;
  start : Q;
  end_ : Q;
  text : string
}.
End Turn.

Module VadSegment.
Record t : Type := Make {
  start : Q;
  end_ : Q
}.
End VadSegment.

(** Stable insertion sort of a list by a rational key. *)
Section SortBy.
Context {A : Type} (key : A → Q).

Fixpoint insert_by (x : A) (l : list A) : list A :=
  match l with
  | [] => [x]
  | y :: l' =>
      if Qle_bool (key x) (key y) then x :: y :: l' else y :: insert_by x l'
  end.

Definition sort_by (l : list A) : list A := foldr insert_by [] l.

End SortBy.

(* ===================================================================== *)
(** * VAD extractor and dialog compactor (specification, 4.2 and 2) *)
(* ===================================================================== *)

Module VadExtractor.
Local Open Scope Q_scope.

(** Modelled from the spec: [extract_vad_list_from_words] is defined in
    [switchboard/utils], which is not among the sources.  A new segment is
    opened at a Word's start. *)
Definition open_at (w : Word.t) : VadSegment.t :=
  {| VadSegment.start := Word.start w; VadSegment.end_ := Word.end_ w |}.

(** Modelled from the spec: merging a Word into the open segment extends
    the segment so that it covers the Word. *)
Definition merge_into (cur : VadSegment.t) (w : Word.t) : VadSegment.t :=
  {| VadSegment.start := VadSegment.start cur;
     VadSegment.end_ := Qmax (VadSegment.end_ cur) (Word.end_ w) |}.

(** Modelled from the spec (4.2): "merge a Word into the current open
    segment if its start minus the current segment's end is <=
    [min_word_vad_diff]; otherwise close the current segment and open a new
    one at the Word's start". *)
Fixpoint merge_words (min_word_vad_diff : Q) (cur : VadSegment.t)
    (ws : list Word.t) : list VadSegment.t :=
  match ws with
  | [] => [cur]
  | w :: ws' =>
      if Qle_bool (Word.start w - VadSegment.end_ cur) min_word_vad_diff
      then merge_words min_word_vad_diff (merge_into cur w) ws'
      else cur :: merge_words min_word_vad_diff (open_at w) ws'
  end.

(** Modelled from the spec (4.2): "within each channel, sort Words by
    start time", then merge. *)
Definition extract_segments (min_word_vad_diff : Q) (ws : list Word.t)
  : list VadSegment.t :=
  match sort_by Word.start ws with
  | [] => []
  | w :: ws' => merge_words min_word_vad_diff (open_at w) ws'
  end.

(** Modelled from the spec (4.2): input "per-channel Word sequence",
    output the VadList, a mapping from SpeakerId to its segments. *)
Definition extract_vad_list (words : gmap SpeakerId (list Word.t))
    (min_word_vad_diff : Q) : gmap SpeakerId (list VadSegment.t) :=
  extract_segments min_word_vad_diff <$> words.

(** Modelled from the spec (6): what the transcript source loads for a
    session, "Dialog and per-channel Word sequence". *)
Record word_dialog : Type := WordDialog {
  turns : list Turn.t;
  words : gmap SpeakerId (list Word.t)
}.

(** Modelled from the spec: the VAD extractor applied to a loaded
    transcript. *)
Definition extract_vad_list_from_words (d : word_dialog) (min_word_vad_diff : Q)
  : gmap SpeakerId (list VadSegment.t) :=
  extract_vad_list (words d) min_word_vad_diff.

(** Modelled from the spec (2): the Dialog Compactor "discards word-level
    granularity, retaining only speaker-turn boundaries". *)
Definition remove_words_from_dialog (d : word_dialog) : list Turn.t := turns d.

(** Consecutive segments are more than [gap] apart. *)
Fixpoint gaps_exceed (gap : Q) (segs : list VadSegment.t) : Prop :=
  match segs with
  | a :: (b :: _) as rest =>
      gap < VadSegment.start b - VadSegment.end_ a ∧ gaps_exceed gap rest
  | _ => True
  end.

(** Sorted by start time. *)
Definition sorted_by_start (segs : list VadSegment.t) : Prop :=
  StronglySorted (λ a b, VadSegment.start a <= VadSegment.start b) segs.

(** No two segments overlap: each ends before every later one starts. *)
Definition non_overlapping (segs : list VadSegment.t) : Prop :=
  StronglySorted (λ a b, VadSegment.end_ a < VadSegment.start b) segs.

(** Two overlapping words of one speaker. *)
Definition overlapping_words : gmap SpeakerId (list Word.t) :=
  {[ 0%nat := [Word.Make "well" 0 10 0%nat; Word.Make "yeah" 8 12 0%nat] ]}.

(** Words of two speakers, not in time order: speaker 0 says two words
    50 ms apart and a third one a second later, speaker 1 a single word. *)
Definition demo_words : gmap SpeakerId (list Word.t) :=
  <[ 1%nat := [Word.Make "right" (1 # 2) 1 1%nat] ]>
    {[ 0%nat := [Word.Make "there" 3 (7 # 2) 0%nat;
                 Word.Make "hello" 0 1 0%nat;
                 Word.Make "you" (21 # 20) 2 0%nat] ]}.

End VadExtractor.

(* ===================================================================== *)
(** * A small corpus *)
(* ===================================================================== *)

(** Two sessions of a corpus laid out like Switchboard, for running
    [generate]: the audio index, a builder, and a transcript source that
    returns the same short dialog for every session. *)
Module Demo.

Definition transcript : VadExtractor.word_dialog :=
  {| VadExtractor.turns :=
       [Turn.Make 0%nat 0 2 "hello you";
        Turn.Make 1%nat (1 # 2) 1 "right";
        Turn.Make 0%nat 3 (7 # 2) "there"];
     VadExtractor.words := VadExtractor.demo_words |}.

Definition load_transcript (session session_dir : string)
    (apply_regexp remove_restarts : bool) : VadExtractor.word_dialog :=
  transcript.

Definition index : gmap string string :=
  <["2005" := "swb1_d1/data/sw02005"]> {["2001" := "swb1_d1/data/sw02001"]}.

Definition builder : Swithchboard.builder :=
  {| Swithchboard.cfg :=
       {| Swithchboard.ext := ".wav";
          Swithchboard.root := "/data/switchboard/audio";
          Swithchboard.min_word_vad_diff := 1 # 10;
          Swithchboard.remove_restarts := false;
          Swithchboard.train_sessions := ["2001"];
          Swithchboard.val_sessions := ["2005"];
          Swithchboard.test_sessions := ["2008"] |};
     Swithchboard.extracted_path := "/cache/extracted" |}.

Definition generate (sessions : list string) :=
  Swithchboard.generate load_transcript VadExtractor.extract_vad_list_from_words
    VadExtractor.remove_words_from_dialog index builder sessions.

End Demo.

(* ===================================================================== *)
(** * Window engine, sliding-window mode (specification, 4.3) *)
(* ===================================================================== *)

Module WindowEngine.
Local Open Scope Q_scope.

(** Modelled from the spec (3): the Session a dataset loader produces. *)
Record Session : Type := MkSession {
  id : string;
  audio_path : string;
  dialog : list Turn.t;
  vad_list : gmap SpeakerId (list VadSegment.t)
}.

(** Modelled from the spec (4.3): a window descriptor [(offset, duration)]. *)
Record window : Type := Window {
  offset : Q;
  duration : Q
}.

(** Modelled from the spec (4.3): the parameters of sliding-window mode. *)
Record params : Type := Params {
  audio_duration : Q;
  audio_overlap : Q;
  audio_include_ratio : Q
}.

(** Modelled from the spec: windows "advance by [audio_duration -
    audio_overlap]". *)
Definition step (p : params) : Q := audio_duration p - audio_overlap p.

(** The [k]-th candidate offset. *)
Definition offset_at (p : params) (k : nat) : Q := inject_Z (Z.of_nat k) * step p.

(** Modelled from the spec: "Windows start at 0 and advance by
    [audio_duration - audio_overlap] until the session end": the offsets
    [k * step] below the session's length [session_end], of which there
    are [ceil(session_end / step)]. *)
Definition candidate_offsets (p : params) (session_end : Q) : list Q :=
  map (offset_at p) (seq 0 (Z.to_nat (Qceiling (session_end / step p)))).

(** Modelled from the spec: "The last partial window (shorter than
    [audio_duration]) is dropped rather than padded": a window is whole
    when it ends within the session. *)
Definition whole (p : params) (session_end : Q) (o : Q) : bool :=
  Qle_bool (o + audio_duration p) session_end.

(** The segment has some time in common with the window [[a, b)]: it
    starts before [b] and ends after [a]. *)
Definition touches (a b : Q) (s : VadSegment.t) : bool :=
  negb (Qle_bool b (VadSegment.start s)) && negb (Qle_bool (VadSegment.end_ s) a).

(** Length of the union of segments sorted by start, of which [hi] is the
    right end of what has been measured so far: of each segment only the
    part after [hi] counts. *)
Fixpoint union_length (hi : Q) (segs : list VadSegment.t) : Q :=
  match segs with
  | [] => 0
  | s :: segs' =>
      Qmax 0 (VadSegment.end_ s - Qmax hi (VadSegment.start s))
      + union_length (Qmax hi (VadSegment.end_ s)) segs'
  end.

(** The segments of every channel. *)
Definition all_segments (vl : gmap SpeakerId (list VadSegment.t))
  : list VadSegment.t :=
  concat (map snd (map_to_list vl)).

(** Modelled from the spec: the time that "the union of any channel's
    VAD activity spans" for the window [[a, b)].  The activity of a window
    is that of the segments which reach into it, each counted in full and
    what several segments share counted once: this is the reading under
    which the scenario of the specification (8) has 4 s (ratio 0.8) for the
    window [[0, 5)] and 1 s (0.2) for [[8, 13)]. *)
Definition active_time (vl : gmap SpeakerId (list VadSegment.t)) (a b : Q) : Q :=
  match sort_by VadSegment.start (List.filter (touches a b) (all_segments vl)) with
  | [] => 0
  | s :: segs' => union_length (VadSegment.start s) (s :: segs')
  end.

(** Speech at time [t]: the segment covers [t]. *)
Definition speaks (s : VadSegment.t) (t : Q) : Prop :=
  VadSegment.start s <= t ∧ t < VadSegment.end_ s.

(** The union of the channels' activity for the window [[a, b)], as a set
    of times: [t] is in it when a segment of some channel that reaches into
    the window covers [t]. *)
Definition active_at (vl : gmap SpeakerId (list VadSegment.t)) (a b t : Q) : Prop :=
  ∃ (ch : SpeakerId) (segs : list VadSegment.t) (s : VadSegment.t),
    vl !! ch = Some segs ∧ s ∈ segs ∧
    VadSegment.start s < b ∧ a < VadSegment.end_ s ∧
    speaks s t.

(** The sum of the lengths of a list of intervals. *)
Fixpoint total_length (pieces : list VadSegment.t) : Q :=
  match pieces with
  | [] => 0
  | x :: pieces' => (VadSegment.end_ x - VadSegment.start x) + total_length pieces'
  end.

(** [m] is the length of the set of times [P]: the set is cut into
    intervals that are not empty and do not overlap, and [m] is the sum of
    their lengths. *)
Definition measures (m : Q) (P : Q → Prop) : Prop :=
  ∃ pieces : list VadSegment.t,
    Forall (λ x, VadSegment.start x < VadSegment.end_ x) pieces ∧
    StronglySorted (λ x y, VadSegment.end_ x <= VadSegment.start y) pieces ∧
    (∀ t, (∃ x, x ∈ pieces ∧ speaks x t) ↔ P t) ∧
    m == total_length pieces.

(** The intervals [union_length] adds up: of each segment the part after
    [hi], when there is one. *)
Fixpoint pieces_after (hi : Q) (segs : list VadSegment.t) : list VadSegment.t :=
  match segs with
  | [] => []
  | s :: segs' =>
      (if Qle_bool (VadSegment.end_ s) (Qmax hi (VadSegment.start s)) then []
       else [VadSegment.Make (Qmax hi (VadSegment.start s)) (VadSegment.end_ s)])
      ++ pieces_after (Qmax hi (VadSegment.end_ s)) segs'
  end.

(** Modelled from the spec: "a window is kept only if ... VAD activity
    spans at least [audio_include_ratio] fraction of its duration". *)
Definition active_enough (p : params) (s : Session) (o : Q) : bool :=
  Qle_bool (audio_include_ratio p * audio_duration p)
           (active_time (vad_list s) o (o + audio_duration p)).

(** Modelled from the spec (4.3, sliding-window mode): the window engine
    itself is part of [DialogAudioDataset], which is not among the sources.
    [session_end] is the length of the session's audio.  With a step that
    is not positive the offsets never reach the session end: no window
    list is produced. *)
Definition sliding_windows (p : params) (s : Session) (session_end : Q)
  : option (list window) :=
  if Qle_bool (step p) 0 then None
  else
    Some (map (λ o, Window o (audio_duration p))
            (List.filter (λ o, whole p session_end o && active_enough p s o)
               (candidate_offsets p session_end))).

(** The scenario of the specification (8): a session of 20 s in which one
    channel is active on [[2, 6)] and [[10, 11)], windows of 5 s that
    overlap by 1 s, inclusion ratio 0.4. *)
Definition scenario_session : Session :=
  {| id := "scenario";
     audio_path := "scenario.wav";
     dialog := [];
     vad_list := {[ 0%nat := [VadSegment.Make 2 6; VadSegment.Make 10 11] ]} |}.

Definition scenario_params : params :=
  {| audio_duration := 5; audio_overlap := 1; audio_include_ratio := 4 # 10 |}.

(** Two speakers talking over each other: speaker 0 on [[2, 6)], speaker 1
    on [[4, 7)] and on [[10, 11)]. *)
Definition overlap_session : Session :=
  {| id := "overlap";
     audio_path := "overlap.wav";
     dialog := [];
     vad_list :=
       <[ 1%nat := [VadSegment.Make 4 7; VadSegment.Make 10 11] ]>
         {[ 0%nat := [VadSegment.Make 2 6] ]} |}.

(** What makes [w] a window of the list: it is the window of length
    [audio_duration] at the [k]-th offset for some [k], the offset is before
    the session end, the window ends within the session, and the union of
    the channels' activity for it has a length of at least
    [audio_include_ratio] of the window's. *)
Definition generated (p : params) (s : Session) (session_end : Q) (w : window)
  : Prop :=
  ∃ k : nat,
    w = Window (offset_at p k) (audio_duration p) ∧
    offset_at p k < session_end ∧
    offset_at p k + audio_duration p <= session_end ∧
    ∃ m : Q,
      measures m (active_at (vad_list s) (offset_at p k)
                    (offset_at p k + audio_duration p)) ∧
      audio_include_ratio p * audio_duration p <= m.

End WindowEngine.

(* ===================================================================== *)
(** * Channel flip (specification, 4.5) *)
(* ===================================================================== *)

Module Augmentation.
Local Open Scope Q_scope.

(** Modelled from the spec (3, 4.4): the per-channel tensors of a training
    example, each a list indexed by channel: the waveform channels, the
    VAD planes, and the optional VAD history and VAD label. *)
Record example : Type := MkExample {
  waveform : list (list Q);
  vad : list (list Q);
  vad_history : option (list (list Q));
  vad_label : option (list (list Q))
}.

(** Exchanging the two speakers of a per-channel tensor; a tensor without
    two channels (mono audio) has nothing to exchange. *)
Definition swap_channels {A : Type} (planes : list A) : list A :=
  match planes with
  | [a; b] => [b; a]
  | _ => planes
  end.

(** Modelled from the spec (4.5): "swap the channel identity of all
    per-channel tensors (waveform channels, VAD planes, VAD-history,
    VAD-label)". *)
Definition flip (x : example) : example :=
  {| waveform := swap_channels (waveform x);
     vad := swap_channels (vad x);
     vad_history := swap_channels <$> vad_history x;
     vad_label := swap_channels <$> vad_label x |}.

(** Modelled from the spec (4.5, 9): the flip is applied "with probability
    [flip_probability]" and only to a dataset whose [flip_channels] is
    set; [u], drawn uniformly from [[0, 1)], is the random source of the
    access. *)
Definition channel_flip {HFDataset Transform : Type}
    (ds : DialogAudioDataset.t HFDataset Transform) (u : Q) (x : example)
  : example :=
  if DialogAudioDataset.flip_channels ds
     && negb (Qle_bool (DialogAudioDataset.flip_probability ds) u)
  then flip x
  else x.

(** A two-speaker example: two samples and two VAD frames per channel, one
    history bin per channel, one label frame per channel. *)
Definition stereo_example : example :=
  {| waveform := [[1 # 10; -1 # 10]; [0; 3 # 10]];
     vad := [[1; 1]; [0; 1]];
     vad_history := Some [[3 # 4]; [1 # 4]];
     vad_label := Some [[0]; [1]] |}.

End Augmentation.

(* ===================================================================== *)
(** * The keys [collate_fn] reads and writes *)
(* ===================================================================== *)

Module CollateKeys.
Import Torch.

(** The keys the loop of [collate_fn] reads with [b[k]], in the order it
    reads them. *)
Definition mandatory_fields : list string := ["waveform"; "dataset"; "session"].

(** The first of the mandatory keys that [b] lacks, if it lacks one: the
    key of the [KeyError] that [b] makes the loop raise. *)
Definition first_missing (b : gmap string value) : option string :=
  match b !! "waveform", b !! "dataset", b !! "session" with
  | None, _, _ => Some "waveform"
  | Some _, None, _ => Some "dataset"
  | Some _, Some _, None => Some "session"
  | Some _, Some _, Some _ => None
  end.

(** All the keys of a record that [collate_fn] looks at. *)
Definition read_fields : list string := mandatory_fields ++ Collate.optional_fields.

(** Two records hold the same under every key [collate_fn] looks at. *)
Definition agree (b b' : gmap string value) : Prop :=
  ∀ k, k ∈ read_fields → b !! k = b' !! k.

(** The keys every returned batch has. *)
Definition batch_fields : list string := ["waveform"; "dset_name"; "session"].

(** A record as [Collate.mk_record] builds it, with one more key that
    [collate_fn] never looks at. *)
Definition with_offset (b : gmap string value) : gmap string value :=
  <["offset" := VStr "12.5"]> b.

(** A record without [dataset]. *)
Definition nameless : gmap string value :=
  <["session" := VStr "sw2005"]>
    (<["waveform" := VTensor (Tensor [1; 4]%nat [1; 1; 0; 0]%Q)]> ∅).

End CollateKeys.

(* ===================================================================== *)
(** * [prepare_data] and the data loaders of [DialogAudioDM] *)
(* ===================================================================== *)

Module DataLoaders.
Section Loaders.
Context {HFDataset Transform : Type}.

(** [AttributeError]: the data module has no attribute of that name
    (yet). *)
Inductive attribute_error : Type :=
| AttributeError (attr : string).

(** The arguments of a call [DataLoader(dataset, batch_size=...,
    pin_memory=..., collate_fn=..., num_workers=..., shuffle=...)]. *)
Record loader_args : Type := MkLoaderArgs {
  dataset : DialogAudioDataset.t HFDataset Transform;
  batch_size : Z;
  pin_memory : bool;
  collate_fn : list (gmap string Torch.value) → Py.result (gmap string Torch.value);
  num_workers : Z;
  shuffle : bool
}.

(** [torch.utils.data.DataLoader] is PyTorch's: what its constructor does
    with the arguments (it returns a loader, or raises, as it does for a
    batch size that is not positive, a negative worker count, or an empty
    dataset to shuffle) is left open. *)
Context {Outcome : Type}.
Variable DataLoader : loader_args → Outcome.

(** [self.<attr>] for one of the datasets [setup] stores. *)
Definition getattr (attr : string)
    (value : option (DialogAudioDataset.t HFDataset Transform))
  : attribute_error + DialogAudioDataset.t HFDataset Transform :=
  match value with
  | Some ds => inr ds
  | None => inl (AttributeError attr)
  end.

(** The arguments the three methods pass: [dset, batch_size=self.batch_size,
    pin_memory=self.pin_memory, collate_fn=self.collate_fn,
    num_workers=self.num_workers, shuffle=...]. *)
Definition loader (self : DialogAudioDM.t Transform)
    (ds : DialogAudioDataset.t HFDataset Transform) (shuffled : bool)
  : loader_args :=
  {| dataset := ds;
     batch_size := DialogAudioDM.batch_size self;
     pin_memory := DialogAudioDM.pin_memory self;
     collate_fn := Collate.collate_fn;
     num_workers := DialogAudioDM.num_workers self;
     shuffle := shuffled |}.

Definition train_dataloader (self : DialogAudioDM.t Transform)
    (st : DialogAudioDM.dsets HFDataset Transform)
  : attribute_error + Outcome :=
  match getattr "train_dset" (DialogAudioDM.train_dset st) with
  | inl e => inl e
  | inr ds => inr (DataLoader (loader self ds true))
  end.

Definition val_dataloader (self : DialogAudioDM.t Transform)
    (st : DialogAudioDM.dsets HFDataset Transform)
  : attribute_error + Outcome :=
  match getattr "val_dset" (DialogAudioDM.val_dset st) with
  | inl e => inl e
  | inr ds => inr (DataLoader (loader self ds false))
  end.

Definition test_dataloader (self : DialogAudioDM.t Transform)
    (st : DialogAudioDM.dsets HFDataset Transform)
  : attribute_error + Outcome :=
  match getattr "test_dset" (DialogAudioDM.test_dset st) with
  | inl e => inl e
  | inr ds => inr (DataLoader (loader self ds false))
  end.

(** [prepare_data]: the calls of [load_spoken_dialog_audio_dataset] it
    makes, as pairs [(datasets, split)] in the order of the calls; it
    discards what they return. *)
Definition prepare_data (self : DialogAudioDM.t Transform)
  : list (list string * string) :=
  (λ split, (DialogAudioDM.datasets self, split)) <$> ["train"; "validation"; "test"].

End Loaders.
Arguments attribute_error : clear implicits.
Arguments loader_args : clear implicits.

(** A data module for IPU training of another corpus list: it differs from
    [DialogAudioDM.defaults] in [datasets], [audio_include_ratio],
    [audio_context_duration], [ipu_min_time], [ipu_pause_time], [vad],
    [batch_size], [pin_memory] and [num_workers] only. *)
Definition retuned (corpora : list string) : DialogAudioDM.t unit :=
  {| DialogAudioDM.datasets := corpora;
     DialogAudioDM.type := "sliding";
     DialogAudioDM.transforms := None;
     DialogAudioDM.audio_mono := true;
     DialogAudioDM.audio_duration := 10;
     DialogAudioDM.sample_rate := 16000;
     DialogAudioDM.audio_overlap := 2;
     DialogAudioDM.audio_normalize := true;
     DialogAudioDM.audio_include_ratio := 9 # 10;
     DialogAudioDM.audio_context_duration := 4;
     DialogAudioDM.ipu_min_time := 2;
     DialogAudioDM.ipu_pause_time := 1 # 2;
     DialogAudioDM.vad := false;
     DialogAudioDM.vad_hz := 50;
     DialogAudioDM.vad_horizon := 2;
     DialogAudioDM.vad_history := false;
     DialogAudioDM.vad_history_times := [60; 30; 10; 5]%Z;
     DialogAudioDM.flip_channels := true;
     DialogAudioDM.flip_probability := 1 # 2;
     DialogAudioDM.mask_vad := false;
     DialogAudioDM.mask_vad_probability := 1 # 2;
     DialogAudioDM.batch_size := 32;
     DialogAudioDM.pin_memory := false;
     DialogAudioDM.num_workers := 8 |}.

(** A loader of corpora that returns the name of the split it was asked
    for, and one that returns something else for ["validation"]. *)
Definition echo_split (corpora : list string) (split : string) : string := split.

Definition echo_split' (corpora : list string) (split : string) : string :=
  if bool_decide (split = "validation") then "held-out" else split.

End DataLoaders.

(* ===================================================================== *)
(** * [Swithchboard._split_generators] and [_generate_examples] *)
(* ===================================================================== *)

Module SwithchboardSplits.

Definition _URL : string :=
  "https://www.isip.piconepress.com/projects/switchboard/releases/switchboard_word_alignments.tar.gz".

(** [datasets.SplitGenerator(name=..., gen_kwargs={"sessions": ...})]; the
    names are those of [datasets.Split.TRAIN], [VALIDATION] and [TEST]. *)
Record SplitGenerator : Type := MkSplitGenerator {
  name : string;
  sessions : list string
}.

(** [_split_generators(self, dl_manager)]: it stores the path
    [dl_manager.download_and_extract(_URL)] returns on the builder and
    returns the three generators. *)
Definition _split_generators (config : Swithchboard.SwitchboardConfig)
    (download_and_extract : string → string)
  : Swithchboard.builder * list SplitGenerator :=
  ({| Swithchboard.cfg := config;
      Swithchboard.extracted_path := download_and_extract _URL |},
   [ {| name := "train"; sessions := Swithchboard.train_sessions config |};
     {| name := "validation"; sessions := Swithchboard.val_sessions config |};
     {| name := "test"; sessions := Swithchboard.test_sessions config |} ]).

(** What [_generate_examples] hands to [logger.info]: [len(sessions)] and
    [sessions[:5] + ["..."]]. *)
Definition logged (sessions : list string) : nat * list string :=
  (length sessions, take 5 sessions ++ ["..."]).

Section Examples.
Context {WordDialog Dialog VadList : Type}.
Variable load_transcript : string → string → bool → bool → WordDialog.
Variable extract_vad_list_from_words : WordDialog → Q → VadList.
Variable remove_words_from_dialog : WordDialog → Dialog.

(** [_generate_examples(self, sessions)]: the log record and the
    generator [self.generate(sessions)]. *)
Definition _generate_examples (rel_audio_path : gmap string string)
    (self : Swithchboard.builder) (sessions : list string)
  : (nat * list string) * Swithchboard.run (string * @Swithchboard.example Dialog VadList) :=
  (logged sessions,
   Swithchboard.generate load_transcript extract_vad_list_from_words
     remove_words_from_dialog rel_audio_path self sessions).

End Examples.
End SwithchboardSplits.

(* ===================================================================== *)
(** * Properties of [collate_fn] *)
(* ===================================================================== *)

(** Membership of a literal key in a literal list of keys. *)
Ltac in_fields :=
  unfold Collate.optional_fields;
  repeat first [apply list_elem_of_here | apply list_elem_of_further].

Section CollateFacts.
Import Torch Collate.
Implicit Types (b : gmap string value) (batch : list (gmap string value)).

Lemma collect_cons k b batch :
  collect k (b :: batch) =
  match b !! k with Some v => v :: collect k batch | None => collect k batch end.
Proof. reflexivity. Qed.

Lemma append_if_present_collect k b acc batch :
  append_if_present b k acc ++ collect k batch = acc ++ collect k (b :: batch).
Proof.
  rewrite collect_cons. unfold append_if_present.
  destruct (b !! k); [by rewrite <- app_assoc|done].
Qed.

(** On records that have the mandatory keys the loop never raises, and it
    appends to each list the values found under its key, in order. *)
Lemma loop_extend batch : ∀ st,
  Forall is_record batch → loop st batch = Py.Ok (extend st batch).
Proof.
  induction batch as [|b batch IH]; intros st Hrec.
  - destruct st. unfold extend. simpl. by rewrite !app_nil_r.
  - apply Forall_cons in Hrec as [(Hw & Hd & Hs) Hrec].
    destruct Hw as [w Hw], Hd as [d Hd], Hs as [s Hs].
    simpl. unfold loop_body, Py.getitem. rewrite Hw, Hd, Hs. simpl.
    rewrite IH by done. f_equal. unfold extend. simpl.
    rewrite !append_if_present_collect, <- !app_assoc, !collect_cons, Hw, Hd, Hs.
    reflexivity.
Qed.

(** A key that every record has is collected once per record. *)
Lemma collect_all k batch :
  Forall (λ b, is_Some (b !! k)) batch →
  Forall2 (λ b v, b !! k = Some v) batch (collect k batch).
Proof.
  induction 1 as [|b batch [v Hv] _ IH]; [constructor|].
  rewrite collect_cons, Hv. by constructor.
Qed.

Lemma collect_nil_iff k batch :
  collect k batch = [] ↔ Forall (λ b, b !! k = None) batch.
Proof.
  induction batch as [|b batch IH]; [by split; [constructor|]|].
  rewrite collect_cons, Forall_cons. destruct (b !! k) eqn:E.
  - split; [done|]. by intros [? _].
  - rewrite IH. tauto.
Qed.

Lemma collect_nonempty_iff k batch :
  collect k batch ≠ [] ↔ ∃ b, b ∈ batch ∧ is_Some (b !! k).
Proof.
  rewrite collect_nil_iff, <- Exists_Forall_neg, Exists_exists.
  - split; intros (b & Hb & Hk); exists b; split; try done.
    + by apply not_eq_None_Some.
    + by apply not_eq_None_Some.
  - intros b. destruct (b !! k); [right|left]; done.
Qed.

Lemma length_collect_le k batch : (length (collect k batch) ≤ length batch)%nat.
Proof.
  induction batch as [|b batch IH]; [done|].
  rewrite collect_cons. destruct (b !! k); simpl; lia.
Qed.

Lemma length_collect_lt k batch :
  (∃ b, b ∈ batch ∧ b !! k = None) →
  (length (collect k batch) < length batch)%nat.
Proof.
  induction batch as [|b batch IH]; intros (b' & Hin & Hnone).
  - by apply elem_of_nil in Hin.
  - rewrite collect_cons. apply elem_of_cons in Hin as [->|Hin].
    + rewrite Hnone. simpl. pose proof (length_collect_le k batch). lia.
    + assert (length (collect k batch) < length batch)%nat by eauto.
      destruct (b !! k); simpl; lia.
Qed.

(** ** [torch.cat] *)

Lemma as_tensors_ok vs ts : as_tensors vs = Py.Ok ts → vs = VTensor <$> ts.
Proof.
  revert ts. induction vs as [|v vs IH]; intros ts H; simpl in H.
  - by injection H as <-.
  - destruct v as [t| |]; try discriminate.
    destruct (as_tensors vs) as [ts'|] eqn:E; simpl in H; [|discriminate].
    injection H as <-. simpl. f_equal. by apply IH.
Qed.

Lemma cat_loop_data tail ts : ∀ acc r,
  cat_loop tail acc ts = Py.Ok r → r.2 = acc.2 ++ concat (data <$> ts).
Proof.
  induction ts as [|t ts IH]; intros acc r H; simpl in H.
  - injection H as <-. simpl. by rewrite app_nil_r.
  - unfold cat_step in H. destruct (shape t) as [|n tail']; [discriminate|].
    case_bool_decide; [|discriminate]. simpl in H.
    apply IH in H. rewrite H. simpl. by rewrite app_assoc.
Qed.

(** A successful [torch.cat] was given tensors only, at least one, and the
    entries of its result are their entries, one operand after the other. *)
Lemma cat_entries vs t :
  cat vs = Py.Ok t →
  ∃ ts, vs = VTensor <$> ts ∧ ts ≠ [] ∧ data t = concat (data <$> ts).
Proof.
  unfold cat. intros H.
  destruct (as_tensors vs) as [ts|] eqn:E; simpl in H; [|discriminate].
  exists ts. split; [by apply as_tensors_ok|].
  unfold cat_tensors in H. destruct ts as [|t0 ts]; [discriminate|].
  split; [done|].
  destruct (shape t0) as [|n tail]; [discriminate|].
  destruct (cat_loop tail (0%nat, []) (t0 :: ts)) as [r|] eqn:El; simpl in H;
    [|discriminate].
  injection H as <-. simpl. by apply cat_loop_data in El.
Qed.

(** ** The batch [collate_fn] returns *)

Lemma cat_if_nonempty_ok k acc (ret : gmap string value) :
  acc = [] ∨ (∃ t, cat acc = Py.Ok t) →
  ∃ ret', cat_if_nonempty k acc ret = Py.Ok ret' ∧
    (∀ k', k' ≠ k → ret' !! k' = ret !! k') ∧
    ((acc = [] ∧ ret' !! k = ret !! k) ∨
     (∃ t, acc ≠ [] ∧ cat acc = Py.Ok t ∧ ret' !! k = Some (VTensor t))).
Proof.
  intros [->|[t Ht]].
  - exists ret. simpl. eauto.
  - destruct acc as [|v acc]; [discriminate|].
    exists (<[k := VTensor t]> ret). unfold cat_if_nonempty. rewrite Ht. simpl.
    split; [done|]. split.
    + intros k' Hk'. by rewrite lookup_insert_ne.
    + right. exists t. by rewrite lookup_insert_eq.
Qed.

(** The batch returned for well-formed records whose tensors can be
    concatenated. *)
Lemma collate_fn_ok batch :
  batch ≠ [] → Forall is_record batch → concatenable batch →
  ∃ ret w,
    collate_fn batch = Py.Ok ret ∧
    cat (collect "waveform" batch) = Py.Ok w ∧
    ret !! "waveform" = Some (VTensor w) ∧
    ret !! "dset_name" = Some (VList (collect "dataset" batch)) ∧
    ret !! "session" = Some (VList (collect "session" batch)) ∧
    ∀ f, f ∈ optional_fields → optional_outcome batch ret f.
Proof.
  intros Hne Hrec Hcat.
  assert (∃ w, cat (collect "waveform" batch) = Py.Ok w) as [w Hw].
  { destruct (Hcat "waveform") as [Hnil|?]; [set_solver| |done].
    apply collect_nil_iff in Hnil. destruct batch as [|b batch]; [done|].
    apply Forall_cons in Hnil as [Hn _], Hrec as [(Hs & _) _].
    rewrite Hn in Hs. by destruct Hs. }
  unfold collate_fn. rewrite loop_extend by done. simpl. rewrite Hw. simpl.
  set (ret0 := <["session" := _]> _).
  destruct (cat_if_nonempty_ok "vad" (collect "vad" batch) ret0)
    as (ret1 & -> & Hoth1 & Hk1); [apply Hcat; in_fields|]. simpl.
  destruct (cat_if_nonempty_ok "vad_history" (collect "vad_history" batch) ret1)
    as (ret2 & -> & Hoth2 & Hk2); [apply Hcat; in_fields|]. simpl.
  destruct (cat_if_nonempty_ok "vad_label" (collect "vad_label" batch) ret2)
    as (ret3 & -> & Hoth3 & Hk3); [apply Hcat; in_fields|].
  exists ret3, w. split; [done|]. split; [done|].
  repeat split.
  - by rewrite Hoth3, Hoth2, Hoth1.
  - by rewrite Hoth3, Hoth2, Hoth1.
  - by rewrite Hoth3, Hoth2, Hoth1.
  - intros f Hf. unfold optional_fields in Hf.
    apply elem_of_cons in Hf as [->|Hf]; [|apply elem_of_cons in Hf as [->|Hf];
      [|apply list_elem_of_singleton in Hf as ->]].
    + rewrite <- (Hoth2 "vad"), <- (Hoth3 "vad") in Hk1 by done.
      destruct Hk1 as [[? ?]|?]; [left|right]; done.
    + rewrite <- (Hoth3 "vad_history") in Hk2 by done.
      destruct Hk2 as [[? Hk2]|?]; [left|right]; try done.
      split; [done|]. by rewrite Hk2, Hoth1.
    + destruct Hk3 as [[? Hk3]|?]; [left|right]; try done.
      split; [done|]. by rewrite Hk3, Hoth2, Hoth1.
Qed.

(** The loop raises nothing but [KeyError] on a mandatory key. *)
Lemma loop_raises batch : ∀ st e,
  loop st batch = Py.Raise e →
  ∃ k, k ∈ ["waveform"; "dataset"; "session"] ∧ e = Py.KeyError k.
Proof.
  induction batch as [|b batch IH]; intros st e H; simpl in H; [discriminate|].
  unfold loop_body, Py.getitem in H.
  destruct (b !! "waveform"); simpl in H;
    [|injection H as <-; eexists; split; [|done]; in_fields].
  destruct (b !! "dataset"); simpl in H;
    [|injection H as <-; eexists; split; [|done]; in_fields].
  destruct (b !! "session"); simpl in H;
    [|injection H as <-; eexists; split; [|done]; in_fields].
  by eapply IH.
Qed.

Lemma cat_if_nonempty_raises k acc (ret : gmap string value) e :
  cat_if_nonempty k acc ret = Py.Raise e → cat acc = Py.Raise e.
Proof.
  destruct acc as [|v acc]; [discriminate|]. unfold cat_if_nonempty.
  destruct (cat (v :: acc)); simpl; [discriminate|by intros [= ->]].
Qed.

(** Every way [collate_fn] can fail: a record without one of the three
    mandatory keys, or a list that [torch.cat] refuses.  Which records have
    an optional key is never a reason. *)
Lemma collate_fn_raises batch e :
  collate_fn batch = Py.Raise e →
  (∃ k, k ∈ ["waveform"; "dataset"; "session"] ∧ e = Py.KeyError k) ∨
  (∃ k, k ∈ "waveform" :: optional_fields ∧ cat (collect k batch) = Py.Raise e).
Proof.
  unfold collate_fn. intros H.
  destruct (loop empty_lists batch) as [st|e'] eqn:Hloop; simpl in H;
    [|injection H as <-; left; by eapply loop_raises].
  right.
  assert (Forall is_record batch) as Hrec.
  { clear H. revert st Hloop. generalize empty_lists.
    induction batch as [|b batch IH]; intros st0 st Hloop; [constructor|].
    simpl in Hloop. unfold loop_body, Py.getitem in Hloop.
    destruct (b !! "waveform") eqn:Hw; simpl in Hloop; [|discriminate].
    destruct (b !! "dataset") eqn:Hd; simpl in Hloop; [|discriminate].
    destruct (b !! "session") eqn:Hs; simpl in Hloop; [|discriminate].
    constructor; [|by eapply IH].
    unfold is_record. rewrite Hw, Hd, Hs. eauto. }
  rewrite loop_extend in Hloop by done. injection Hloop as <-. simpl in H.
  destruct (cat (collect "waveform" batch)) as [w|e'] eqn:Hw; simpl in H;
    [|injection H as <-; exists "waveform"; split; [in_fields|done]].
  destruct (cat_if_nonempty "vad" _ _) as [r1|e'] eqn:H1; simpl in H;
    [|injection H as <-; exists "vad"; split; [in_fields|];
      by eapply cat_if_nonempty_raises].
  destruct (cat_if_nonempty "vad_history" _ _) as [r2|e'] eqn:H2; simpl in H;
    [|injection H as <-; exists "vad_history"; split; [in_fields|];
      by eapply cat_if_nonempty_raises].
  exists "vad_label". split; [in_fields|]. by eapply cat_if_nonempty_raises.
Qed.

(** C6, for tensors that [torch.cat] accepts.  For every non-empty list
    of per-example records (each has the keys [waveform], [dataset] and
    [session]) whose collected tensors agree in every dimension but the
    first, [collate_fn] returns a batch: under [waveform] the
    concatenation of every record's waveform, under [dset_name] and
    [session] the dataset names and session identifiers of the records, one
    per record and in record order; an optional key ([vad], [vad_history],
    [vad_label]) is in the batch exactly when some record has it, and it
    then holds the concatenation of that field. *)
Theorem collate_fn_batch batch :
  batch ≠ [] → Forall is_record batch → concatenable batch →
  ∃ ret w ws names ids,
    collate_fn batch = Py.Ok ret ∧
    ret !! "waveform" = Some (VTensor w) ∧
    Forall2 (λ b t, b !! "waveform" = Some (VTensor t)) batch ws ∧
    data w = concat (data <$> ws) ∧
    ret !! "dset_name" = Some (VList names) ∧
    Forall2 (λ b v, b !! "dataset" = Some v) batch names ∧
    ret !! "session" = Some (VList ids) ∧
    Forall2 (λ b v, b !! "session" = Some v) batch ids ∧
    ∀ f, f ∈ optional_fields →
      (is_Some (ret !! f) ↔ ∃ b, b ∈ batch ∧ is_Some (b !! f)) ∧
      (∀ v, ret !! f = Some v →
         ∃ t, cat (collect f batch) = Py.Ok t ∧ v = VTensor t).
Proof.
  intros Hne Hrec Hcat.
  destruct (collate_fn_ok batch Hne Hrec Hcat)
    as (ret & w & Hret & Hw & Hrw & Hrd & Hrs & Hopt).
  destruct (cat_entries _ _ Hw) as (ws & Hws & _ & Hdata).
  exists ret, w, ws, (collect "dataset" batch), (collect "session" batch).
  repeat split; try done.
  - assert (Forall2 (λ b v, b !! "waveform" = Some v) batch (VTensor <$> ws)) as H.
    { rewrite <- Hws. apply collect_all.
      eapply Forall_impl; [exact Hrec|]. by intros b (? & _). }
    apply Forall2_fmap_r in H. exact H.
  - apply collect_all. eapply Forall_impl; [exact Hrec|]. by intros b (_ & ? & _).
  - apply collect_all. eapply Forall_impl; [exact Hrec|]. by intros b (_ & _ & ?).
  - intros Hsome. apply collect_nonempty_iff.
    destruct (Hopt f H) as [[_ Hnone]|(t & Hn & _)]; [|done].
    rewrite Hnone in Hsome. by destruct Hsome.
  - intros Hex. apply collect_nonempty_iff in Hex.
    destruct (Hopt f H) as [[Hnil _]|(t & _ & _ & ->)]; [done|eauto].
  - intros v Hv. destruct (Hopt f H) as [[_ Hnone]|(t & _ & Ht & Hrt)].
    + congruence.
    + exists t. split; [done|]. congruence.
Qed.

(** C1, as the code has it.  [collate_fn] has no check of the optional
    keys: for well-formed records whose tensors [torch.cat] accepts, a batch
    in which some but not all records have the optional key [f] is collated
    without an exception.  Under [f] the batch returned holds the
    concatenation of the tensors [ts] that the records with the key have
    under it, in record order: its entries are the entries of these tensors,
    one tensor after the other, and they are fewer tensors than the batch
    has records, the records without the key adding nothing. *)
Theorem collate_fn_mixed_presence batch f :
  f ∈ optional_fields → mixed_presence f batch →
  Forall is_record batch → concatenable batch →
  ∃ ret t ts,
    collate_fn batch = Py.Ok ret ∧
    cat (collect f batch) = Py.Ok t ∧
    ret !! f = Some (VTensor t) ∧
    collect f batch = VTensor <$> ts ∧
    data t = concat (data <$> ts) ∧
    (0 < length ts < length batch)%nat.
Proof.
  intros Hf [Hsome Hnone] Hrec Hcat.
  assert (batch ≠ []) as Hne.
  { destruct Hsome as (b & Hb & _). intros ->. by apply elem_of_nil in Hb. }
  destruct (collate_fn_ok batch Hne Hrec Hcat) as (ret & w & Hret & _ & _ & _ & _ & Hopt).
  apply collect_nonempty_iff in Hsome.
  destruct (Hopt f Hf) as [[Hnil _]|(t & _ & Ht & Hrt)]; [done|].
  destruct (cat_entries _ _ Ht) as (ts & Hts & Hts_ne & Hdata).
  pose proof (length_collect_lt f batch Hnone) as Hlt.
  rewrite Hts, length_fmap in Hlt.
  exists ret, t, ts. repeat split; try done.
  destruct ts; [done|simpl; lia].
Qed.

End CollateFacts.

Lemma batch3_mixed : Collate.mixed_presence "vad_history" Collate.batch3.
Proof.
  split.
  - eexists. split; [apply list_elem_of_here|]. vm_compute. eauto.
  - eexists. split; [apply list_elem_of_further, list_elem_of_here|].
    vm_compute. reflexivity.
Qed.

(** C1, the case of the specification: of the three records of [batch3],
    two have [vad_history] and one has not; [collate_fn] raises nothing and
    returns a batch whose [vad_history] has two rows. *)
Lemma collate_fn_batch3_returns :
  Collate.mixed_presence "vad_history" Collate.batch3 ∧
  ¬ Py.raises (Collate.collate_fn Collate.batch3) ∧
  (ret ← Collate.collate_fn Collate.batch3; Py.Ok (ret !! "vad_history")) =
    Py.Ok (Some (Torch.VTensor
      (Torch.Tensor [2; 4]%nat [1 # 2; 1 # 2; 1; 0; 0; 1 # 4; 1; 1]%Q))).
Proof.
  split; [exact batch3_mixed|split].
  - vm_compute. tauto.
  - vm_compute. reflexivity.
Qed.

(** C6 as stated, for every non-empty list of records, fails: two records
    whose waveforms have four and three samples are well-formed, and
    [torch.cat] refuses them, so [collate_fn] raises and there is no
    batch. *)
Lemma collate_fn_ragged_batch_raises :
  Collate.ragged_batch ≠ [] ∧
  Forall Collate.is_record Collate.ragged_batch ∧
  Collate.collate_fn Collate.ragged_batch
    = Py.Raise (Py.RuntimeError "Sizes of tensors must match except in dimension 0").
Proof.
  split; [discriminate|]. split; [|by vm_compute].
  unfold Collate.ragged_batch.
  repeat (apply Forall_cons; split); try apply Forall_nil;
    repeat split; eexists; vm_compute; reflexivity.
Qed.

Lemma batch3_records : Forall Collate.is_record Collate.batch3.
Proof.
  unfold Collate.batch3.
  repeat (apply Forall_cons; split); try apply Forall_nil;
    repeat split; eexists; vm_compute; reflexivity.
Qed.

Lemma batch3_concatenable : Collate.concatenable Collate.batch3.
Proof.
  intros k Hk.
  repeat (apply elem_of_cons in Hk as [->|Hk]);
    [right|left|right|left|by apply elem_of_nil in Hk];
    try (by vm_compute); eexists; by vm_compute.
Qed.

Lemma collate_fn_batch_witness :
  ∃ ret w ws names ids,
    Collate.collate_fn Collate.batch3 = Py.Ok ret ∧
    ret !! "waveform" = Some (Torch.VTensor w) ∧
    Forall2 (λ b t, b !! "waveform" = Some (Torch.VTensor t)) Collate.batch3 ws ∧
    Torch.data w = concat (Torch.data <$> ws) ∧
    ret !! "dset_name" = Some (Torch.VList names) ∧
    Forall2 (λ b v, b !! "dataset" = Some v) Collate.batch3 names ∧
    ret !! "session" = Some (Torch.VList ids) ∧
    Forall2 (λ b v, b !! "session" = Some v) Collate.batch3 ids ∧
    ∀ f, f ∈ Collate.optional_fields →
      (is_Some (ret !! f) ↔ ∃ b, b ∈ Collate.batch3 ∧ is_Some (b !! f)) ∧
      (∀ v, ret !! f = Some v →
         ∃ t, Torch.cat (Collate.collect f Collate.batch3) = Py.Ok t ∧
              v = Torch.VTensor t).
Proof.
  apply (collate_fn_batch Collate.batch3).
  - discriminate.
  - exact batch3_records.
  - exact batch3_concatenable.
Defined.

Lemma collate_fn_mixed_presence_witness :
  ∃ ret t ts,
    Collate.collate_fn Collate.batch3 = Py.Ok ret ∧
    Torch.cat (Collate.collect "vad_history" Collate.batch3) = Py.Ok t ∧
    ret !! "vad_history" = Some (Torch.VTensor t) ∧
    Collate.collect "vad_history" Collate.batch3 = Torch.VTensor <$> ts ∧
    Torch.data t = concat (Torch.data <$> ts) ∧
    (0 < length ts < length Collate.batch3)%nat.
Proof.
  apply (collate_fn_mixed_presence Collate.batch3 "vad_history").
  - in_fields.
  - exact batch3_mixed.
  - exact batch3_records.
  - exact batch3_concatenable.
Defined.

(* ===================================================================== *)
(** * Properties of [DialogAudioDM._dataset] and [setup] *)
(* ===================================================================== *)

Section DataModuleFacts.
Context {HFDataset Transform : Type}.
Variable load : list string → string → HFDataset.
Implicit Types (self : DialogAudioDM.t Transform) (dset : HFDataset).

Local Abbreviation unset := (DialogAudioDM.unset HFDataset Transform).

(** C10.  [_dataset] passes [mask_vad] and [mask_vad_probability] of the
    data module unchanged whatever the split is, and so the training,
    validation and test datasets that [setup] builds all carry the
    configured values. *)
Theorem dataset_mask_vad_every_split self dset split stage :
  DialogAudioDataset.mask_vad (DialogAudioDM._dataset self dset split)
    = DialogAudioDM.mask_vad self ∧
  DialogAudioDataset.mask_vad_probability (DialogAudioDM._dataset self dset split)
    = DialogAudioDM.mask_vad_probability self ∧
  let built := DialogAudioDM.setup load self stage unset in
  let flags (ds : DialogAudioDataset.t HFDataset Transform) :=
    (DialogAudioDataset.mask_vad ds, DialogAudioDataset.mask_vad_probability ds) in
  let configured :=
    (DialogAudioDM.mask_vad self, DialogAudioDM.mask_vad_probability self) in
  flags <$> DialogAudioDM.train_dset built
    = (if DialogAudioDM.stage_in stage "fit" then Some configured else None) ∧
  flags <$> DialogAudioDM.val_dset built
    = (if DialogAudioDM.stage_in stage "fit" then Some configured else None) ∧
  flags <$> DialogAudioDM.test_dset built
    = (if DialogAudioDM.stage_in stage "test" then Some configured else None).
Proof.
  split; [reflexivity|]. split; [reflexivity|].
  unfold DialogAudioDM.setup.
  destruct (DialogAudioDM.stage_in stage "fit"),
           (DialogAudioDM.stage_in stage "test"); repeat split.
Qed.

Lemma dataset_flip_other self dset split :
  split ≠ "train" →
  DialogAudioDataset.flip_channels (DialogAudioDM._dataset self dset split) = false.
Proof. intros Hs. unfold DialogAudioDM._dataset. simpl. by case_bool_decide. Qed.

Lemma swap_channels_involutive {A : Type} (planes : list A) :
  Augmentation.swap_channels (Augmentation.swap_channels planes) = planes.
Proof. by destruct planes as [|a [|b [|c planes]]]. Qed.

(** Flipping twice gives the example back, in every field. *)
Lemma flip_involutive x : Augmentation.flip (Augmentation.flip x) = x.
Proof.
  destruct x as [w v [h|] [l|]]; unfold Augmentation.flip; simpl;
    by rewrite !swap_channels_involutive.
Qed.

(** C5.  For a split other than ["train"], [_dataset] builds the dataset
    with [flip_channels] off whatever the data module's [flip_channels] is
    (for ["train"] it passes the configured value); so do the validation
    and test datasets of [setup]; an access to such a dataset leaves the
    example as it is.  For any dataset: when the flip is applied
    ([flip_channels] is set and the draw [u] is below [flip_probability]),
    the two channels [a], [b] of the waveform, of the VAD, of the VAD
    history and of the VAD label all change places, and a field that is
    absent stays absent; when it is not applied, the example is returned
    unchanged. *)
Theorem channel_flip_only_when_training self dset split stage
    (ds : DialogAudioDataset.t HFDataset Transform) (u : Q)
    (x : Augmentation.example) :
  split ≠ "train" →
  DialogAudioDataset.flip_channels (DialogAudioDM._dataset self dset split)
    = false ∧
  DialogAudioDataset.flip_channels (DialogAudioDM._dataset self dset "train")
    = DialogAudioDM.flip_channels self ∧
  (let built := DialogAudioDM.setup load self stage unset in
   DialogAudioDataset.flip_channels <$> DialogAudioDM.val_dset built
     = (if DialogAudioDM.stage_in stage "fit" then Some false else None) ∧
   DialogAudioDataset.flip_channels <$> DialogAudioDM.test_dset built
     = (if DialogAudioDM.stage_in stage "test" then Some false else None)) ∧
  Augmentation.channel_flip (DialogAudioDM._dataset self dset split) u x = x ∧
  (let y := Augmentation.channel_flip ds u x in
   (DialogAudioDataset.flip_channels ds = true →
    (u < DialogAudioDataset.flip_probability ds)%Q →
    (∀ a b, Augmentation.waveform x = [a; b] → Augmentation.waveform y = [b; a]) ∧
    (∀ a b, Augmentation.vad x = [a; b] → Augmentation.vad y = [b; a]) ∧
    (∀ a b, Augmentation.vad_history x = Some [a; b] →
            Augmentation.vad_history y = Some [b; a]) ∧
    (∀ a b, Augmentation.vad_label x = Some [a; b] →
            Augmentation.vad_label y = Some [b; a]) ∧
    (Augmentation.vad_history x = None → Augmentation.vad_history y = None) ∧
    (Augmentation.vad_label x = None → Augmentation.vad_label y = None)) ∧
   (DialogAudioDataset.flip_channels ds = false ∨
    (DialogAudioDataset.flip_probability ds <= u)%Q → y = x)).
Proof.
  intros Hs. split; [by apply dataset_flip_other|]. split; [reflexivity|].
  split; [|split].
  - unfold DialogAudioDM.setup.
    destruct (DialogAudioDM.stage_in stage "fit"),
             (DialogAudioDM.stage_in stage "test"); by split.
  - unfold Augmentation.channel_flip. by rewrite dataset_flip_other.
  - unfold Augmentation.channel_flip. split.
    + intros -> Hu.
      destruct (Qle_bool (DialogAudioDataset.flip_probability ds) u) eqn:E;
        [apply Qle_bool_iff in E; lra|].
      simpl. repeat split.
      * by intros a b ->.
      * by intros a b ->.
      * by intros a b ->.
      * by intros a b ->.
      * by intros ->.
      * by intros ->.
    + intros [->|Hu]; [done|].
      apply Qle_bool_iff in Hu. rewrite Hu. by rewrite andb_false_r.
Qed.

End DataModuleFacts.

Lemma channel_flip_only_when_training_witness :
  "val" ≠ "train" ∧
  DialogAudioDataset.flip_channels
    (DialogAudioDM._dataset (DialogAudioDM.defaults ["switchboard"]) tt "val")
    = false ∧
  Augmentation.channel_flip
    (DialogAudioDM._dataset (DialogAudioDM.defaults ["switchboard"]) tt "val")
    (1 # 4) Augmentation.stereo_example
    = Augmentation.stereo_example ∧
  Augmentation.waveform
    (Augmentation.channel_flip
       (DialogAudioDM._dataset (DialogAudioDM.defaults ["switchboard"]) tt "train")
       (1 # 4) Augmentation.stereo_example)
    = [[0; 3 # 10]; [1 # 10; -1 # 10]]%Q.
Proof.
  assert ("val" ≠ "train") as Hs by discriminate.
  split; [exact Hs|].
  pose proof (channel_flip_only_when_training (λ _ _, tt)
    (DialogAudioDM.defaults ["switchboard"]) tt "val" None
    (DialogAudioDM._dataset (DialogAudioDM.defaults ["switchboard"]) tt "train")
    (1 # 4) Augmentation.stereo_example Hs)
    as (Hflag & _ & _ & Hsame & Hflip & _).
  split; [exact Hflag|]. split; [exact Hsame|].
  destruct (Hflip eq_refl eq_refl) as (Hwave & _).
  exact (Hwave _ _ eq_refl).
Defined.

(** On the training dataset of the default data module a draw below
    [flip_probability] does flip, and it swaps all four fields. *)
Example channel_flip_train_swaps :
  Augmentation.channel_flip
    (DialogAudioDM._dataset (DialogAudioDM.defaults ["switchboard"]) tt "train")
    (1 # 4) Augmentation.stereo_example
  = {| Augmentation.waveform := [[0; 3 # 10]; [1 # 10; -1 # 10]]%Q;
       Augmentation.vad := [[0; 1]; [1; 1]]%Q;
       Augmentation.vad_history := Some [[1 # 4]; [3 # 4]]%Q;
       Augmentation.vad_label := Some [[1]; [0]]%Q |}.
Proof. reflexivity. Qed.

(* ===================================================================== *)
(** * Properties of [Swithchboard.generate] *)
(* ===================================================================== *)

Section GenerateFacts.
Import Swithchboard.
Context {WordDialog Dialog VadList : Type}.
Variable load_transcript : string → string → bool → bool → WordDialog.
Variable extract_vad_list_from_words : WordDialog → Q → VadList.
Variable remove_words_from_dialog : WordDialog → Dialog.

Local Abbreviation generate :=
  (generate load_transcript extract_vad_list_from_words remove_words_from_dialog).
Local Abbreviation example := (@example Dialog VadList).

Implicit Types (self : builder) (rel : gmap string string)
  (item : string * example).

(** Every session in the index: one item per session, in list order, and
    no exception. *)
Lemma generate_all_known rel self sessions :
  Forall (λ s, is_Some (rel !! s)) sessions →
  ∃ items, generate rel self sessions = Run items None ∧
           Forall2 (item_of self rel) sessions items.
Proof.
  unfold Swithchboard.generate.
  induction 1 as [|s sessions [rel_path Hs] _ (items & IH & Hitems)].
  - exists []. by split; [|constructor].
  - eexists (_ :: items). simpl. unfold Py.getitem. rewrite Hs, IH.
    split; [reflexivity|]. constructor; [|done].
    repeat split. by exists rel_path.
Qed.

(** A session missing from the index stops the generator with [KeyError],
    after the items of the sessions before it. *)
Lemma generate_unknown rel self known bad rest :
  Forall (λ s, is_Some (rel !! s)) known → rel !! bad = None →
  ∃ items,
    generate rel self (known ++ bad :: rest) = Run items (Some (Py.KeyError bad)) ∧
    Forall2 (item_of self rel) known items.
Proof.
  unfold Swithchboard.generate. intros Hknown Hbad.
  induction Hknown as [|s sessions [rel_path Hs] _ (items & IH & Hitems)].
  - exists []. simpl. unfold Py.getitem. rewrite Hbad. by split; [|constructor].
  - eexists (_ :: items). simpl. unfold Py.getitem. rewrite Hs, IH.
    split; [reflexivity|]. constructor; [|done].
    repeat split. by exists rel_path.
Qed.

(** The generator ends without an exception exactly when every session of
    the list is in the index. *)
Lemma generate_raises_iff rel self sessions :
  raised (generate rel self sessions) = None ↔
  Forall (λ s, is_Some (rel !! s)) sessions.
Proof.
  split.
  - unfold Swithchboard.generate.
    induction sessions as [|s sessions IH]; simpl; [by constructor|].
    unfold Py.getitem. destruct (rel !! s) as [rel_path|] eqn:Hs; simpl.
    + intros H. constructor; [by eexists|by apply IH].
    + discriminate.
  - intros H. by destruct (generate_all_known rel self sessions H) as (? & -> & _).
Qed.

(** C8, as the code has it.  A split list with a session identifier that
    the audio index lacks makes [generate] raise ([KeyError] on the identifier, at the first such
    session): the session is not skipped, and nothing is yielded for it or
    for the sessions after it.  A split list whose sessions are all in the
    index yields exactly one item per session, in list order, and raises
    nothing. *)
Theorem generate_unknown_session rel self sessions :
  (raised (generate rel self sessions) = None ↔
   Forall (λ s, is_Some (rel !! s)) sessions) ∧
  (Forall (λ s, is_Some (rel !! s)) sessions →
   ∃ items, generate rel self sessions = Run items None ∧
            Forall2 (item_of self rel) sessions items) ∧
  (∀ known bad rest,
     sessions = known ++ bad :: rest →
     Forall (λ s, is_Some (rel !! s)) known → rel !! bad = None →
     ∃ items,
       generate rel self sessions = Run items (Some (Py.KeyError bad)) ∧
       Forall2 (item_of self rel) known items).
Proof.
  split; [apply generate_raises_iff|]. split; [apply generate_all_known|].
  intros known bad rest -> Hknown Hbad. by apply generate_unknown.
Qed.

(** C7.  Every item [generate] yields holds the VAD list extracted from the
    word-level dialog that [load_transcript] returned for the session, and,
    as its dialog, that same word-level dialog after
    [remove_words_from_dialog]: the extraction reads the dialog before the
    words are removed, and the word-level dialog itself is not in the
    item. *)
Theorem generate_vad_before_word_removal rel self sessions item :
  item ∈ yielded (generate rel self sessions) →
  let word_level := loaded load_transcript self (session item.2) in
  item.1 = session item.2 ∧
  vad_list item.2
    = extract_vad_list_from_words word_level (min_word_vad_diff (cfg self)) ∧
  dialog item.2 = remove_words_from_dialog word_level.
Proof.
  unfold Swithchboard.generate.
  induction sessions as [|s sessions IH]; simpl.
  - intros H. by apply elem_of_nil in H.
  - unfold Py.getitem. destruct (rel !! s) as [rel_path|]; simpl.
    + intros [->|H]%elem_of_cons; [by repeat split|by apply IH].
    + intros H. by apply elem_of_nil in H.
Qed.

End GenerateFacts.

(* ===================================================================== *)
(** * Properties of the VAD extractor *)
(* ===================================================================== *)

Section SortByFacts.
Context {A : Type} (key : A → Q).
Local Open Scope Q_scope.

Local Abbreviation key_le := (λ a b : A, key a <= key b).

Lemma Qle_bool_false x y : Qle_bool x y = false → y < x.
Proof.
  intros H. destruct (Qlt_le_dec y x) as [?|Hle]; [done|].
  apply Qle_bool_iff in Hle. congruence.
Qed.

Lemma insert_by_Forall (P : A → Prop) x l :
  P x → Forall P l → Forall P (insert_by key x l).
Proof.
  intros Hx. induction 1 as [|y l Hy Hl IH]; simpl.
  - by constructor.
  - destruct (Qle_bool (key x) (key y)); repeat constructor; done.
Qed.

Lemma insert_by_sorted x l :
  StronglySorted key_le l → StronglySorted key_le (insert_by key x l).
Proof.
  induction 1 as [|y l Hl IH Hy]; simpl.
  - repeat constructor.
  - destruct (Qle_bool (key x) (key y)) eqn:E.
    + apply Qle_bool_iff in E. constructor; [by constructor|].
      constructor; [done|].
      eapply Forall_impl; [exact Hy|]. simpl. intros z Hz. lra.
    + apply Qle_bool_false in E. constructor; [done|].
      apply insert_by_Forall; [lra|done].
Qed.

Lemma sort_by_sorted l : StronglySorted key_le (sort_by key l).
Proof.
  induction l as [|x l IH]; simpl; [constructor|by apply insert_by_sorted].
Qed.

Lemma insert_by_perm x l : insert_by key x l ≡ₚ x :: l.
Proof.
  induction l as [|y l IH]; simpl; [done|].
  destruct (Qle_bool (key x) (key y)); [done|].
  rewrite IH. apply Permutation_swap.
Qed.

(** Sorting keeps every element, as often as it occurs. *)
Lemma sort_by_perm l : sort_by key l ≡ₚ l.
Proof.
  induction l as [|x l IH]; simpl; [done|].
  by rewrite insert_by_perm, IH.
Qed.

End SortByFacts.

Section VadExtractorFacts.
Import VadExtractor.
Local Open Scope Q_scope.
Implicit Types (cur : VadSegment.t) (ws : list Word.t) (segs : list VadSegment.t).

(** The segments [merge_words] returns for words sorted by start, none of
    which starts before the open segment: the first keeps the start of the
    open segment, the starts never decrease, and each gap between
    neighbours is more than the tolerance. *)
Lemma merge_words_separated tol ws : ∀ cur,
  StronglySorted (λ a b, Word.start a <= Word.start b) ws →
  Forall (λ w, VadSegment.start cur <= Word.start w) ws →
  ∃ hd rest,
    merge_words tol cur ws = hd :: rest ∧
    VadSegment.start hd = VadSegment.start cur ∧
    sorted_by_start (hd :: rest) ∧
    gaps_exceed tol (hd :: rest).
Proof.
  induction ws as [|w ws IH]; intros cur Hsorted Hfrom; simpl.
  - exists cur, []. repeat split; repeat constructor.
  - apply StronglySorted_inv in Hsorted as [Hsorted Hw].
    apply Forall_cons in Hfrom as [Hcw Hfrom].
    destruct (Qle_bool _ tol) eqn:E.
    + destruct (IH (merge_into cur w)) as (hd & rest & -> & Hhd & Hs & Hg);
        [done|done|].
      exists hd, rest. repeat split; done.
    + apply Qle_bool_false in E.
      destruct (IH (open_at w)) as (hd & rest & -> & Hhd & Hs & Hg); [done|..].
      { eapply Forall_impl; [exact Hw|]. by intros. }
      simpl in Hhd. exists cur, (hd :: rest). repeat split; try done.
      * constructor; [done|].
        apply StronglySorted_inv in Hs as [_ Hrest].
        constructor; [by rewrite Hhd|].
        eapply Forall_impl; [exact Hrest|]. simpl. intros z Hz.
        rewrite Hhd in Hz. lra.
      * rewrite Hhd. lra.
Qed.

Lemma extract_segments_separated tol ws :
  sorted_by_start (extract_segments tol ws) ∧
  gaps_exceed tol (extract_segments tol ws).
Proof.
  unfold extract_segments.
  pose proof (sort_by_sorted Word.start ws) as Hsorted.
  destruct (sort_by Word.start ws) as [|w ws'].
  - split; [constructor|exact I].
  - apply StronglySorted_inv in Hsorted as [Hsorted Hw].
    destruct (merge_words_separated tol ws' (open_at w)) as (hd & rest & -> & _ & ? & ?);
      done.
Qed.

(** With a tolerance that is not negative, sorted segments whose
    neighbours are more than the tolerance apart do not overlap. *)
Lemma separated_non_overlapping tol segs :
  0 <= tol → sorted_by_start segs → gaps_exceed tol segs → non_overlapping segs.
Proof.
  intros Htol. induction segs as [|a segs IH]; intros Hs Hg; [constructor|].
  apply StronglySorted_inv in Hs as [Hs Ha].
  destruct segs as [|b segs]; [repeat constructor|].
  destruct Hg as [Hab Hg]. constructor; [by apply IH|].
  apply StronglySorted_inv in Hs as [_ Hb].
  constructor; [lra|].
  eapply Forall_impl; [exact Hb|]. simpl. intros c Hc. lra.
Qed.

(** C3, for a tolerance that is not negative.  For every per-channel Word
    sequence the extractor (sort by start; merge a Word when its start minus
    the open segment's end is at most [min_word_vad_diff]) yields, per
    channel, segments sorted by start, no two of which overlap, and with
    every gap between consecutive segments above [min_word_vad_diff]. *)
Theorem extract_vad_list_separated (words : gmap SpeakerId (list Word.t))
    (min_word_vad_diff : Q) (ch : SpeakerId) segs :
  0 <= min_word_vad_diff →
  extract_vad_list words min_word_vad_diff !! ch = Some segs →
  sorted_by_start segs ∧ non_overlapping segs ∧ gaps_exceed min_word_vad_diff segs.
Proof.
  intros Htol Hch. unfold extract_vad_list in Hch.
  rewrite lookup_fmap in Hch.
  destruct (words !! ch) as [ws|]; [|discriminate].
  injection Hch as <-.
  destruct (extract_segments_separated min_word_vad_diff ws) as [Hs Hg].
  split; [done|]. split; [|done].
  by apply (separated_non_overlapping min_word_vad_diff).
Qed.

End VadExtractorFacts.

(** C3 as stated, for every tolerance, fails: with the tolerance -5 a word
    that starts 2 s before the open segment ends opens a new segment, and
    the two segments [0, 10] and [8, 12] overlap. *)
Lemma extract_vad_list_negative_tolerance_overlaps :
  VadExtractor.extract_vad_list VadExtractor.overlapping_words (-5) !! 0%nat
    = Some [VadSegment.Make 0 10; VadSegment.Make 8 12] ∧
  ¬ VadExtractor.non_overlapping [VadSegment.Make 0 10; VadSegment.Make 8 12].
Proof.
  split; [by vm_compute|].
  intros H. apply StronglySorted_inv in H as [_ H].
  apply Forall_cons in H as [H _]. simpl in H. revert H. by vm_compute.
Qed.

Lemma extract_vad_list_separated_witness :
  ∃ segs,
    VadExtractor.extract_vad_list VadExtractor.demo_words (1 # 10) !! 0%nat
      = Some segs ∧
    segs = [VadSegment.Make 0 2; VadSegment.Make 3 (7 # 2)] ∧
    VadExtractor.sorted_by_start segs ∧
    VadExtractor.non_overlapping segs ∧
    VadExtractor.gaps_exceed (1 # 10) segs.
Proof.
  eexists. split; [by vm_compute|]. split; [reflexivity|].
  apply (extract_vad_list_separated VadExtractor.demo_words (1 # 10) 0%nat).
  - by vm_compute.
  - by vm_compute.
Defined.

(* ===================================================================== *)
(** * Properties of sliding-window generation *)
(* ===================================================================== *)

Section SlidingWindowFacts.
Import WindowEngine.
Local Open Scope Q_scope.
Implicit Types (p : params) (s : Session) (T : Q).

(** The first offset is 0 and each next one is a step further. *)
Lemma offset_at_0 p : offset_at p 0 == 0.
Proof. unfold offset_at. change (inject_Z (Z.of_nat 0)) with 0. ring. Qed.

Lemma offset_at_S p k : offset_at p (S k) == offset_at p k + step p.
Proof.
  unfold offset_at. rewrite Nat2Z.inj_succ, <- Z.add_1_r, inject_Z_plus.
  change (inject_Z 1) with 1. ring.
Qed.

(** The [k]-th offset is a candidate exactly when it is before the
    session end. *)
Lemma candidate_count p T (k : nat) :
  0 < step p →
  (k < Z.to_nat (Qceiling (T / step p)))%nat ↔ offset_at p k < T.
Proof.
  intros Hstep. unfold offset_at.
  set (c := Qceiling (T / step p)).
  pose proof (Qle_ceiling (T / step p)) as Hle.
  pose proof (Qceiling_lt (T / step p)) as Hlt. fold c in Hle, Hlt.
  assert (T == (T / step p) * step p) as HT by (field; lra).
  split.
  - intros Hk.
    assert (Z.of_nat k <= c - 1)%Z as Hkc by lia.
    rewrite Zle_Qle in Hkc.
    assert (inject_Z (Z.of_nat k) < T / step p) as Hq by lra.
    rewrite HT. by apply Qmult_lt_compat_r.
  - intros Hk. rewrite HT in Hk.
    apply Qmult_lt_r in Hk; [|done].
    assert (inject_Z (Z.of_nat k) < inject_Z c) as Hq by lra.
    rewrite <- Zlt_Qlt in Hq. lia.
Qed.

Lemma candidate_offsets_lookup p T (k : nat) o :
  0 < step p →
  candidate_offsets p T !! k = Some o ↔ o = offset_at p k ∧ offset_at p k < T.
Proof.
  intros Hstep. unfold candidate_offsets.
  rewrite list_lookup_fmap, <- candidate_count by done.
  destruct (decide (k < Z.to_nat (Qceiling (T / step p)))%nat) as [Hk|Hk].
  - rewrite lookup_seq_lt by done. simpl.
    split; [by intros [= <-]|by intros [-> _]].
  - rewrite lookup_seq_ge by lia. simpl. split; [done|by intros [_ ?]].
Qed.

Lemma candidate_offsets_elem p T o :
  0 < step p →
  o ∈ candidate_offsets p T ↔ ∃ k : nat, o = offset_at p k ∧ offset_at p k < T.
Proof.
  intros Hstep. rewrite list_elem_of_lookup.
  split; intros [k Hk]; exists k; by apply candidate_offsets_lookup.
Qed.

Lemma offset_at_increasing p (j k : nat) :
  0 < step p → (j < k)%nat → offset_at p j < offset_at p k.
Proof.
  intros Hstep Hjk. unfold offset_at. apply Qmult_lt_compat_r; [done|].
  rewrite <- Zlt_Qlt. lia.
Qed.

Lemma candidate_offsets_increasing p T :
  0 < step p → StronglySorted Qlt (candidate_offsets p T).
Proof.
  intros Hstep. unfold candidate_offsets.
  generalize (Z.to_nat (Qceiling (T / step p))) as n. generalize 0%nat as a.
  intros a n. revert a. induction n as [|n IH]; intros a; simpl; [constructor|].
  constructor; [apply IH|].
  apply Forall_fmap, Forall_seq. intros j Hj. simpl.
  apply offset_at_increasing; [done|lia].
Qed.

Lemma filter_StronglySorted {A : Type} (R : A → A → Prop) (f : A → bool) l :
  StronglySorted R l → StronglySorted R (List.filter f l).
Proof.
  induction 1 as [|x l Hl IH Hx]; simpl; [constructor|].
  destruct (f x); [|done]. constructor; [done|].
  apply Forall_forall. intros y Hy.
  apply list_elem_of_In, filter_In in Hy as [Hy _].
  rewrite Forall_forall in Hx. by apply Hx, list_elem_of_In.
Qed.

(** The windows come in the order of their offsets. *)
Lemma sliding_windows_increasing p s T ws :
  0 < step p → sliding_windows p s T = Some ws →
  StronglySorted (λ a b, offset a < offset b) ws.
Proof.
  intros Hstep. unfold sliding_windows.
  destruct (Qle_bool (step p) 0); [discriminate|]. intros [= <-].
  set (kept := List.filter _ _).
  assert (StronglySorted Qlt kept) as Hkept
    by (by apply filter_StronglySorted, candidate_offsets_increasing).
  induction Hkept as [|o l Hl IH Ho]; simpl; [constructor|].
  constructor; [done|]. by apply Forall_fmap.
Qed.

Lemma touches_iff a b seg :
  touches a b seg = true ↔ VadSegment.start seg < b ∧ a < VadSegment.end_ seg.
Proof.
  unfold touches. rewrite andb_true_iff, !negb_true_iff. split.
  - intros [H1 H2]. split; by apply Qle_bool_false.
  - intros [H1 H2]. split.
    + destruct (Qle_bool b (VadSegment.start seg)) eqn:E; [|done].
      apply Qle_bool_iff in E. lra.
    + destruct (Qle_bool (VadSegment.end_ seg) a) eqn:E; [|done].
      apply Qle_bool_iff in E. lra.
Qed.

Lemma all_segments_elem (vl : gmap SpeakerId (list VadSegment.t)) seg :
  seg ∈ all_segments vl ↔ ∃ ch segs, vl !! ch = Some segs ∧ seg ∈ segs.
Proof.
  unfold all_segments. rewrite list_elem_of_In, in_concat. split.
  - intros (segs & Hsegs & Hseg).
    apply in_map_iff in Hsegs as ([ch segs'] & <- & Hin).
    apply list_elem_of_In, elem_of_map_to_list in Hin.
    exists ch, segs'. split; [done|]. by apply list_elem_of_In.
  - intros (ch & segs & Hch & Hseg). exists segs. split.
    + apply in_map_iff. exists (ch, segs). split; [done|].
      by apply list_elem_of_In, elem_of_map_to_list.
    + by apply list_elem_of_In.
Qed.

Lemma pieces_after_from segs : ∀ hi,
  Forall (λ x, hi <= VadSegment.start x) (pieces_after hi segs).
Proof.
  induction segs as [|seg segs IH]; intros hi; simpl; [constructor|].
  apply Forall_app. split.
  - destruct (Qle_bool _ _); repeat constructor. simpl. apply Q.le_max_l.
  - eapply Forall_impl; [apply IH|]. simpl. intros x Hx.
    pose proof (Q.le_max_l hi (VadSegment.end_ seg)). lra.
Qed.

Lemma pieces_after_disjoint segs : ∀ hi,
  Forall (λ x, VadSegment.start x < VadSegment.end_ x) (pieces_after hi segs) ∧
  StronglySorted (λ x y, VadSegment.end_ x <= VadSegment.start y)
    (pieces_after hi segs).
Proof.
  induction segs as [|seg segs IH]; intros hi; simpl; [by repeat constructor|].
  destruct (IH (Qmax hi (VadSegment.end_ seg))) as [IHne IHs].
  pose proof (pieces_after_from segs (Qmax hi (VadSegment.end_ seg))) as Hfrom.
  destruct (Qle_bool _ _) eqn:E; simpl; [done|].
  apply Qle_bool_false in E. split.
  - by constructor.
  - constructor; [done|].
    eapply Forall_impl; [exact Hfrom|]. simpl. intros x Hx.
    pose proof (Q.le_max_r hi (VadSegment.end_ seg)). lra.
Qed.

Lemma union_length_pieces segs : ∀ hi,
  union_length hi segs == total_length (pieces_after hi segs).
Proof.
  induction segs as [|seg segs IH]; intros hi; simpl; [reflexivity|].
  specialize (IH (Qmax hi (VadSegment.end_ seg))).
  destruct (Q.max_spec 0 (VadSegment.end_ seg - Qmax hi (VadSegment.start seg)))
    as [[? Hc]|[? Hc]];
  destruct (Qle_bool _ _) eqn:E; simpl;
    [apply Qle_bool_iff in E|apply Qle_bool_false in E
    |apply Qle_bool_iff in E|apply Qle_bool_false in E]; lra.
Qed.

Lemma pieces_after_speaks segs :
  StronglySorted (λ x y, VadSegment.start x <= VadSegment.start y) segs →
  ∀ hi t, hi <= t →
    (∃ x, x ∈ pieces_after hi segs ∧ speaks x t) ↔
    (∃ seg, seg ∈ segs ∧ speaks seg t).
Proof.
  induction 1 as [|seg segs Hsorted IH Hseg]; intros hi t Ht; simpl.
  - split; intros (x & Hx & _); by apply elem_of_nil in Hx.
  - pose proof (Q.max_spec hi (VadSegment.start seg)) as Hm.
    pose proof (Q.max_spec hi (VadSegment.end_ seg)) as Hm'.
    split.
    + intros (x & Hx & [Hx1 Hx2]). apply elem_of_app in Hx as [Hx|Hx].
      * destruct (Qle_bool _ _); [by apply elem_of_nil in Hx|].
        apply list_elem_of_singleton in Hx as ->. simpl in *.
        exists seg. split; [apply list_elem_of_here|]. split; lra.
      * pose proof (pieces_after_from segs (Qmax hi (VadSegment.end_ seg))) as Hfrom.
        rewrite Forall_forall in Hfrom. specialize (Hfrom x Hx).
        destruct (proj1 (IH (Qmax hi (VadSegment.end_ seg)) t ltac:(lra)))
          as (seg' & Hin & Hsp); [by exists x|].
        exists seg'. split; [by apply list_elem_of_further|done].
    + intros (seg' & Hin & [Hs1 Hs2]).
      assert (VadSegment.start seg <= t) as Hstart.
      { apply elem_of_cons in Hin as [->|Hin]; [done|].
        rewrite Forall_forall in Hseg. specialize (Hseg seg' Hin). simpl in Hseg. lra. }
      destruct (Qlt_le_dec t (VadSegment.end_ seg)) as [Hlt|Hge].
      * exists (VadSegment.Make (Qmax hi (VadSegment.start seg)) (VadSegment.end_ seg)).
        split; [|split; simpl; lra].
        apply elem_of_app. left.
        destruct (Qle_bool _ _) eqn:E; [apply Qle_bool_iff in E; lra|].
        apply list_elem_of_here.
      * apply elem_of_cons in Hin as [->|Hin]; [lra|].
        destruct (proj2 (IH (Qmax hi (VadSegment.end_ seg)) t ltac:(lra)))
          as (x & Hx & Hsp); [by exists seg'|].
        exists x. split; [|done]. apply elem_of_app. by right.
Qed.

(** [active_time] is the length of the union of the channels' activity. *)
Lemma active_time_measures (vl : gmap SpeakerId (list VadSegment.t)) a b :
  measures (active_time vl a b) (active_at vl a b).
Proof.
  unfold active_time.
  set (segs := sort_by VadSegment.start (List.filter (touches a b) (all_segments vl))).
  assert (∀ seg, seg ∈ segs ↔
            ∃ ch l, vl !! ch = Some l ∧ seg ∈ l ∧
                    VadSegment.start seg < b ∧ a < VadSegment.end_ seg) as Hsegs.
  { intros seg. unfold segs. rewrite sort_by_perm.
    rewrite list_elem_of_In, filter_In, <- list_elem_of_In, all_segments_elem,
      touches_iff.
    split.
    - intros [(ch & l & ? & ?) [? ?]]. by exists ch, l.
    - intros (ch & l & ? & ? & ? & ?). split; [by exists ch, l|done]. }
  pose proof (sort_by_sorted VadSegment.start
    (List.filter (touches a b) (all_segments vl))) as Hsorted. fold segs in Hsorted.
  destruct segs as [|seg0 segs'] eqn:E.
  - exists []. split; [constructor|]. split; [constructor|]. split; [|reflexivity].
    intros t. split.
    + intros (x & Hx & _). by apply elem_of_nil in Hx.
    + intros (ch & l & seg & Hch & Hin & Hb & Ha & _).
      assert (seg ∈ []) as Hnil by (apply Hsegs; by exists ch, l).
      by apply elem_of_nil in Hnil.
  - exists (pieces_after (VadSegment.start seg0) (seg0 :: segs')).
    destruct (pieces_after_disjoint (seg0 :: segs') (VadSegment.start seg0)) as [Hne Hdis].
    split; [done|]. split; [done|].
    split; [|exact (union_length_pieces (seg0 :: segs') (VadSegment.start seg0))].
    intros t. split.
    + intros (x & Hx & Hsp).
      pose proof (pieces_after_from (seg0 :: segs') (VadSegment.start seg0)) as Hfrom.
      rewrite Forall_forall in Hfrom. pose proof (Hfrom x Hx) as Hx0.
      destruct Hsp as [Hsp1 Hsp2].
      destruct (proj1 (pieces_after_speaks _ Hsorted (VadSegment.start seg0) t
                         ltac:(lra))) as (seg & Hin & Hseg); [by exists x|].
      apply Hsegs in Hin as (ch & l & ? & ? & ? & ?). by exists ch, l, seg.
    + intros (ch & l & seg & Hch & Hin & Hb & Ha & Hsp).
      assert (seg ∈ seg0 :: segs') as Hin' by (apply Hsegs; by exists ch, l).
      apply pieces_after_speaks; [done| |by exists seg].
      destruct Hsp as [Hsp _].
      apply elem_of_cons in Hin' as [->|Hin']; [done|].
      apply StronglySorted_inv in Hsorted as [_ H0].
      rewrite Forall_forall in H0. specialize (H0 seg Hin'). simpl in H0. lra.
Qed.


Lemma pieces_rest_from u us t :
  StronglySorted (λ x y, VadSegment.end_ x <= VadSegment.start y) (u :: us) →
  (∃ x, x ∈ us ∧ speaks x t) → VadSegment.end_ u <= t.
Proof.
  intros Hs (x & Hx & [Hx1 _]).
  apply StronglySorted_inv in Hs as [_ Hp].
  rewrite Forall_forall in Hp. specialize (Hp x Hx). simpl in Hp. lra.
Qed.

Lemma pieces_first_from u us t :
  VadSegment.start u < VadSegment.end_ u →
  StronglySorted (λ x y, VadSegment.end_ x <= VadSegment.start y) (u :: us) →
  (∃ x, x ∈ u :: us ∧ speaks x t) → VadSegment.start u <= t.
Proof.
  intros Hp Hs (x & Hx & Hsp).
  apply elem_of_cons in Hx as [->|Hx]; [by destruct Hsp|].
  assert (VadSegment.end_ u <= t); [|lra].
  apply (pieces_rest_from u us t Hs). by exists x.
Qed.

Lemma total_length_unique (n : nat) : ∀ us vs,
  (length us + length vs <= n)%nat →
  Forall (λ x, VadSegment.start x < VadSegment.end_ x) us →
  StronglySorted (λ x y, VadSegment.end_ x <= VadSegment.start y) us →
  Forall (λ x, VadSegment.start x < VadSegment.end_ x) vs →
  StronglySorted (λ x y, VadSegment.end_ x <= VadSegment.start y) vs →
  (∀ t, (∃ x, x ∈ us ∧ speaks x t) ↔ (∃ x, x ∈ vs ∧ speaks x t)) →
  total_length us == total_length vs.
Proof.
  induction n as [|n IH]; intros us vs Hn Hpne Hps Hqne Hqs Hcov.
  { destruct us, vs; simpl in Hn; try lia. reflexivity. }
  destruct us as [|u us], vs as [|v vs].
  - reflexivity.
  - apply Forall_cons in Hqne as [Hq _].
    destruct (proj2 (Hcov (VadSegment.start v))) as (x & Hx & _).
    + exists v. split; [apply list_elem_of_here|]. split; lra.
    + by apply elem_of_nil in Hx.
  - apply Forall_cons in Hpne as [Hp _].
    destruct (proj1 (Hcov (VadSegment.start u))) as (x & Hx & _).
    + exists u. split; [apply list_elem_of_here|]. split; lra.
    + by apply elem_of_nil in Hx.
  - pose proof Hpne as Hpne'. pose proof Hqne as Hqne'.
    apply Forall_cons in Hpne' as [Hp Hpne'].
    apply Forall_cons in Hqne' as [Hq Hqne'].
    pose proof (StronglySorted_inv Hps) as [Hps' Hpfst].
    pose proof (StronglySorted_inv Hqs) as [Hqs' Hqfst].
    assert (VadSegment.start v <= VadSegment.start u) as Hqp.
    { apply (pieces_first_from v vs); [done..|]. apply Hcov.
      exists u. split; [apply list_elem_of_here|]. split; lra. }
    assert (VadSegment.start u <= VadSegment.start v) as Hpq.
    { apply (pieces_first_from u us); [done..|]. apply Hcov.
      exists v. split; [apply list_elem_of_here|]. split; lra. }
    simpl in Hn.
    destruct (Qlt_le_dec (VadSegment.end_ u) (VadSegment.end_ v)) as [Hlt|Hge];
      [|destruct (Qlt_le_dec (VadSegment.end_ v) (VadSegment.end_ u)) as [Hlt|Hle]].
    + (* [u] ends first: the rest of [v] stays *)
      assert (total_length us ==
              total_length (VadSegment.Make (VadSegment.end_ u) (VadSegment.end_ v) :: vs))
        as Hrest; [|simpl in *; lra].
      apply IH; [simpl; lia|done|done| | |].
      * by constructor.
      * by constructor.
      * intros t. split.
        -- intros (x & Hx & Hsp).
           assert (VadSegment.end_ u <= t) as Ht
             by (apply (pieces_rest_from u us t Hps); by exists x).
           destruct (proj1 (Hcov t)) as (y & Hy & [Hy1 Hy2]).
           { exists x. split; [by apply list_elem_of_further|done]. }
           apply elem_of_cons in Hy as [->|Hy].
           ++ eexists. split; [apply list_elem_of_here|]. split; simpl; lra.
           ++ exists y. split; [by apply list_elem_of_further|done].
        -- intros (y & Hy & [Hy1 Hy2]).
           assert (VadSegment.end_ u <= t ∧ ∃ y', y' ∈ v :: vs ∧ speaks y' t)
             as [Ht Hy'].
           { apply elem_of_cons in Hy as [->|Hy]; simpl in *.
             - split; [done|]. exists v. split; [apply list_elem_of_here|].
               split; lra.
             - pose proof (pieces_rest_from v vs t Hqs
                 ltac:(exists y; split; [done|split; done])).
               split; [lra|]. exists y.
               split; [by apply list_elem_of_further|done]. }
           destruct (proj2 (Hcov t) Hy') as (x & Hx & [Hx1 Hx2]).
           apply elem_of_cons in Hx as [->|Hx]; [lra|]. by exists x.
    + (* [v] ends first *)
      assert (total_length (VadSegment.Make (VadSegment.end_ v) (VadSegment.end_ u) :: us)
              == total_length vs) as Hrest; [|simpl in *; lra].
      apply IH; [simpl; lia| | |done|done|].
      * by constructor.
      * by constructor.
      * intros t. split.
        -- intros (y & Hy & [Hy1 Hy2]).
           assert (VadSegment.end_ v <= t ∧ ∃ y', y' ∈ u :: us ∧ speaks y' t)
             as [Ht Hy'].
           { apply elem_of_cons in Hy as [->|Hy]; simpl in *.
             - split; [done|]. exists u. split; [apply list_elem_of_here|].
               split; lra.
             - pose proof (pieces_rest_from u us t Hps
                 ltac:(exists y; split; [done|split; done])).
               split; [lra|]. exists y.
               split; [by apply list_elem_of_further|done]. }
           destruct (proj1 (Hcov t) Hy') as (x & Hx & [Hx1 Hx2]).
           apply elem_of_cons in Hx as [->|Hx]; [lra|]. by exists x.
        -- intros (x & Hx & Hsp).
           assert (VadSegment.end_ v <= t) as Ht
             by (apply (pieces_rest_from v vs t Hqs); by exists x).
           destruct (proj2 (Hcov t)) as (y & Hy & [Hy1 Hy2]).
           { exists x. split; [by apply list_elem_of_further|done]. }
           apply elem_of_cons in Hy as [->|Hy].
           ++ eexists. split; [apply list_elem_of_here|]. split; simpl; lra.
           ++ exists y. split; [by apply list_elem_of_further|done].
    + (* both end together *)
      assert (total_length us == total_length vs) as Hrest; [|simpl; lra].
      apply IH; [lia|done..|].
      intros t. split.
      * intros (x & Hx & Hsp).
        assert (VadSegment.end_ u <= t) as Ht
          by (apply (pieces_rest_from u us t Hps); by exists x).
        destruct (proj1 (Hcov t)) as (y & Hy & [Hy1 Hy2]).
        { exists x. split; [by apply list_elem_of_further|done]. }
        apply elem_of_cons in Hy as [->|Hy]; [lra|]. by exists y.
      * intros (x & Hx & Hsp).
        assert (VadSegment.end_ v <= t) as Ht
          by (apply (pieces_rest_from v vs t Hqs); by exists x).
        destruct (proj2 (Hcov t)) as (y & Hy & [Hy1 Hy2]).
        { exists x. split; [by apply list_elem_of_further|done]. }
        apply elem_of_cons in Hy as [->|Hy]; [lra|]. by exists y.
Qed.

(** A set of times has one length only. *)
Lemma measures_unique m m' (P : Q → Prop) :
  measures m P → measures m' P → m == m'.
Proof.
  intros (us & Hpne & Hps & Hp & ->) (vs & Hqne & Hqs & Hq & ->).
  apply (total_length_unique (length us + length vs)); [done..|].
  intros t. by rewrite Hp, Hq.
Qed.

(** The windows of the list are those [generated] describes. *)
Lemma sliding_windows_elem p s T :
  0 < step p →
  ∃ ws, sliding_windows p s T = Some ws ∧ ∀ w, w ∈ ws ↔ generated p s T w.
Proof.
  intros Hstep. unfold sliding_windows.
  destruct (Qle_bool (step p) 0) eqn:E; [apply Qle_bool_iff in E; lra|].
  eexists. split; [reflexivity|]. intros w.
  rewrite list_elem_of_fmap. unfold generated. split.
  - intros (o & -> & Ho). apply list_elem_of_In, filter_In in Ho as [Ho Hkeep].
    apply list_elem_of_In, candidate_offsets_elem in Ho as (k & -> & Hk); [|done].
    apply andb_true_iff in Hkeep as [Hwhole Hact].
    apply Qle_bool_iff in Hwhole, Hact. exists k.
    split; [done|]. split; [done|]. split; [done|].
    eexists. split; [apply active_time_measures|done].
  - intros (k & -> & Hk & Hwhole & m & Hm & Hact). exists (offset_at p k).
    split; [done|]. apply list_elem_of_In, filter_In. split.
    + apply list_elem_of_In, candidate_offsets_elem; [done|]. by exists k.
    + apply andb_true_iff. split; apply Qle_bool_iff; [done|].
      pose proof (measures_unique _ _ _ Hm
        (active_time_measures (vad_list s) (offset_at p k)
           (offset_at p k + audio_duration p))) as Heq.
      lra.
Qed.


End SlidingWindowFacts.



(* ===================================================================== *)
(** * [generate] on the small corpus *)
(* ===================================================================== *)

(** Both sessions are in the index: one item each, in order. *)
Example demo_generate_known :
  Swithchboard.raised (Demo.generate ["2001"; "2005"]) = None ∧
  (λ item : string * Swithchboard.example,
     (item.1, Swithchboard.audio_path item.2))
    <$> Swithchboard.yielded (Demo.generate ["2001"; "2005"])
  = [("2001", "/data/switchboard/audio/swb1_d1/data/sw02001.wav");
     ("2005", "/data/switchboard/audio/swb1_d1/data/sw02005.wav")].
Proof. split; by vm_compute. Qed.

(** The transcripts of a session are looked up under the first two
    characters of its identifier. *)
Example demo_session_dir :
  Swithchboard.session_dir_of Demo.builder "2001"
  = "/cache/extracted/swb_ms98_transcriptions/20/2001".
Proof. by vm_compute. Qed.

Lemma generate_unknown_session_witness :
  ∃ items,
    Demo.generate ["2001"; "9999"; "2005"]
      = Swithchboard.Run items (Some (Py.KeyError "9999")) ∧
    Forall2 (Swithchboard.item_of Demo.builder Demo.index) ["2001"] items.
Proof.
  apply (proj2 (proj2 (generate_unknown_session Demo.load_transcript
    VadExtractor.extract_vad_list_from_words
    VadExtractor.remove_words_from_dialog
    Demo.index Demo.builder ["2001"; "9999"; "2005"])) ["2001"] "9999" ["2005"]).
  - reflexivity.
  - apply Forall_cons. split; [|by apply Forall_nil].
    exists "swb1_d1/data/sw02001". reflexivity.
  - reflexivity.
Defined.

(** C8, its second half as stated, fails: the session ["2005"] is in the
    index and comes after one that is not; [generate] raises [KeyError] at
    the missing one, having yielded the record of ["2001"] only, so the
    indexed session ["2005"] yields no record. *)
Lemma generate_stops_at_unknown_session :
  is_Some (Demo.index !! "2005") ∧
  Swithchboard.raised (Demo.generate ["2001"; "9999"; "2005"])
    = Some (Py.KeyError "9999") ∧
  (Swithchboard.yielded (Demo.generate ["2001"; "9999"; "2005"])).*1 = ["2001"] ∧
  "2005" ∉ (Swithchboard.yielded (Demo.generate ["2001"; "9999"; "2005"])).*1.
Proof.
  split; [eexists; by vm_compute|]. split; [by vm_compute|].
  assert ((Swithchboard.yielded (Demo.generate ["2001"; "9999"; "2005"])).*1
          = ["2001"]) as Hkeys by (by vm_compute).
  split; [exact Hkeys|]. rewrite Hkeys.
  intros Hin. apply list_elem_of_singleton in Hin. discriminate.
Qed.

Lemma generate_vad_before_word_removal_witness :
  ∃ item,
    item ∈ Swithchboard.yielded (Demo.generate ["2001"]) ∧
    Swithchboard.vad_list item.2
      = VadExtractor.extract_vad_list VadExtractor.demo_words (1 # 10) ∧
    Swithchboard.dialog item.2 = VadExtractor.turns Demo.transcript.
Proof.
  assert (∃ item, item ∈ Swithchboard.yielded (Demo.generate ["2001"]))
    as [item Hin].
  { eexists. unfold Demo.generate, Swithchboard.generate. simpl.
    apply list_elem_of_here. }
  exists item. split; [exact Hin|].
  exact (proj2 (generate_vad_before_word_removal Demo.load_transcript
    VadExtractor.extract_vad_list_from_words
    VadExtractor.remove_words_from_dialog
    Demo.index Demo.builder ["2001"] item Hin)).
Defined.

(* ===================================================================== *)
(** * When [collate_fn] returns, what it reads and what it writes *)
(* ===================================================================== *)

Section CollateMoreFacts.
Import Torch Collate CollateKeys.
Implicit Types (b : gmap string value) (batch : list (gmap string value)).

Lemma loop_ok_records batch : ∀ st0 st,
  loop st0 batch = Py.Ok st → Forall is_record batch.
Proof.
  induction batch as [|b batch IH]; intros st0 st Hloop; [constructor|].
  simpl in Hloop. unfold loop_body, Py.getitem in Hloop.
  destruct (b !! "waveform") eqn:Hw; simpl in Hloop; [|discriminate].
  destruct (b !! "dataset") eqn:Hd; simpl in Hloop; [|discriminate].
  destruct (b !! "session") eqn:Hs; simpl in Hloop; [|discriminate].
  constructor; [|by eapply IH].
  unfold is_record. rewrite Hw, Hd, Hs. eauto.
Qed.

Lemma cat_if_nonempty_inv k acc (ret ret' : gmap string value) :
  cat_if_nonempty k acc ret = Py.Ok ret' →
  (acc = [] ∧ ret' = ret) ∨
  (∃ t, acc ≠ [] ∧ cat acc = Py.Ok t ∧ ret' = <[k := VTensor t]> ret).
Proof.
  destruct acc as [|v acc]; simpl; [intros [= <-]; by left|].
  destruct (cat (v :: acc)) as [t|] eqn:E; simpl; [|discriminate].
  intros [= <-]. right. by exists t.
Qed.

(** What [collate_fn] computes once the loop has run: the three
    conditional concatenations on top of the mandatory part. *)
Lemma collate_fn_inv batch ret :
  collate_fn batch = Py.Ok ret →
  Forall is_record batch ∧
  ∃ w ret1 ret2,
    cat (collect "waveform" batch) = Py.Ok w ∧
    cat_if_nonempty "vad" (collect "vad" batch)
      (<["session" := VList (collect "session" batch)]>
         (<["dset_name" := VList (collect "dataset" batch)]>
            (<["waveform" := VTensor w]> ∅))) = Py.Ok ret1 ∧
    cat_if_nonempty "vad_history" (collect "vad_history" batch) ret1 = Py.Ok ret2 ∧
    cat_if_nonempty "vad_label" (collect "vad_label" batch) ret2 = Py.Ok ret.
Proof.
  unfold collate_fn. intros H.
  destruct (loop empty_lists batch) as [st|] eqn:Hloop; simpl in H; [|discriminate].
  assert (Forall is_record batch) as Hrec by (by eapply loop_ok_records).
  split; [done|].
  rewrite loop_extend in Hloop by done. injection Hloop as <-. simpl in H.
  destruct (cat (collect "waveform" batch)) as [w|] eqn:Hw; simpl in H; [|discriminate].
  destruct (cat_if_nonempty "vad" _ _) as [ret1|] eqn:H1; simpl in H; [|discriminate].
  destruct (cat_if_nonempty "vad_history" _ _) as [ret2|] eqn:H2; simpl in H;
    [|discriminate].
  by exists w, ret1, ret2.
Qed.

(** X1.  [collate_fn] returns a batch exactly when the list of records is
    not empty, every record has the keys [waveform], [dataset] and
    [session], and [torch.cat] accepts each list of tensors collected under
    [waveform] and under the optional keys; in every other case it
    raises. *)
Theorem collate_fn_returns_iff batch :
  (∃ ret, collate_fn batch = Py.Ok ret) ↔
  batch ≠ [] ∧ Forall is_record batch ∧ concatenable batch.
Proof.
  split.
  - intros [ret H]. apply collate_fn_inv in H
      as (Hrec & w & ret1 & ret2 & Hw & H1 & H2 & H3).
    split; [by intros ->|]. split; [done|].
    intros k Hk. unfold optional_fields in Hk.
    repeat (apply elem_of_cons in Hk as [->|Hk]);
      [right; by exists w| | | |by apply elem_of_nil in Hk].
    + apply cat_if_nonempty_inv in H1 as [[? _]|(t & _ & ? & _)]; eauto.
    + apply cat_if_nonempty_inv in H2 as [[? _]|(t & _ & ? & _)]; eauto.
    + apply cat_if_nonempty_inv in H3 as [[? _]|(t & _ & ? & _)]; eauto.
  - intros (Hne & Hrec & Hcat).
    destruct (collate_fn_ok batch Hne Hrec Hcat) as (ret & _ & H & _). eauto.
Qed.

Lemma loop_app batch1 batch2 : ∀ st,
  loop st (batch1 ++ batch2) = st' ← loop st batch1; loop st' batch2.
Proof.
  induction batch1 as [|b batch1 IH]; intros st; simpl; [done|].
  destruct (loop_body st b) as [st'|]; simpl; [apply IH|done].
Qed.

Lemma loop_body_missing st b k :
  first_missing b = Some k → loop_body st b = Py.Raise (Py.KeyError k).
Proof.
  unfold first_missing, loop_body, Py.getitem.
  destruct (b !! "waveform"); [|by intros [= <-]].
  destruct (b !! "dataset"); [|by intros [= <-]].
  destruct (b !! "session"); [done|by intros [= <-]].
Qed.

(** X2.  When a record lacks one of [waveform], [dataset], [session] and
    the records before it lack none, [collate_fn] raises [KeyError] for the
    first key (in that order) the record lacks, whatever the tensors and
    whatever the records after it are: the keys are read before anything is
    concatenated. *)
Theorem collate_fn_key_error good b rest k :
  Forall is_record good → first_missing b = Some k →
  collate_fn (good ++ b :: rest) = Py.Raise (Py.KeyError k).
Proof.
  intros Hgood Hk. unfold collate_fn.
  rewrite loop_app, loop_extend by done. simpl.
  by rewrite (loop_body_missing _ _ _ Hk).
Qed.

Lemma cat_if_nonempty_keys k acc (ret ret' : gmap string value) :
  cat_if_nonempty k acc ret = Py.Ok ret' →
  ∀ k', is_Some (ret' !! k') ↔ is_Some (ret !! k') ∨ (k' = k ∧ acc ≠ []).
Proof.
  intros H k'. apply cat_if_nonempty_inv in H as [[-> ->]|(t & Hne & _ & ->)].
  - split; [by left|]. by intros [?|[_ ?]].
  - rewrite lookup_insert_is_Some. split.
    + intros [<-|[_ ?]]; [by right|by left].
    + intros [?|[-> _]]; [|by left].
      destruct (decide (k = k')); [by left|by right].
Qed.

(** X3.  The keys of a returned batch: always [waveform], [dset_name] and
    [session], an optional key ([vad], [vad_history], [vad_label]) when
    some record has it, and never anything else.  The records' [dataset] is
    returned under [dset_name], and whatever else a record holds is not
    passed on. *)
Theorem collate_fn_keys batch ret k :
  collate_fn batch = Py.Ok ret →
  is_Some (ret !! k) ↔
  k ∈ batch_fields ∨
  (k ∈ optional_fields ∧ ∃ b, b ∈ batch ∧ is_Some (b !! k)).
Proof.
  intros H. apply collate_fn_inv in H as (_ & w & ret1 & ret2 & _ & H1 & H2 & H3).
  rewrite (cat_if_nonempty_keys _ _ _ _ H3), (cat_if_nonempty_keys _ _ _ _ H2),
    (cat_if_nonempty_keys _ _ _ _ H1), !lookup_insert_is_Some, lookup_empty,
    !collect_nonempty_iff.
  unfold batch_fields, optional_fields. rewrite !elem_of_cons, !elem_of_nil.
  split.
  - intros [[[H|[-> H]]|[-> H]]|[-> H]]; [|by eauto 10..].
    destruct H as [<-|[_ [<-|[_ [<-|[_ [? Hn]]]]]]]; [by eauto 10..|].
    discriminate.
  - intros [[->|[->|[->|[]]]]|[[->|[->|[->|[]]]] H]]; [| | |by eauto 10..].
    + left. left. left. right. split; [done|]. right. split; [done|]. by left.
    + left. left. left. right. split; [done|]. by left.
    + left. left. left. by left.
Qed.

Lemma fmap_VTensor_inj (ts ts' : list tensor) :
  VTensor <$> ts = VTensor <$> ts' → ts = ts'.
Proof.
  revert ts'. induction ts as [|t ts IH]; intros [|t' ts']; simpl; try done.
  intros [= -> H]. f_equal. by apply IH.
Qed.

Lemma collect_app k batch1 batch2 :
  collect k (batch1 ++ batch2) = collect k batch1 ++ collect k batch2.
Proof. apply omap_app. Qed.

(** The waveform entries and the two lists of a returned batch. *)
Lemma collate_fn_contents batch ret :
  collate_fn batch = Py.Ok ret →
  ∃ w ws,
    ret !! "waveform" = Some (VTensor w) ∧
    collect "waveform" batch = VTensor <$> ws ∧
    data w = concat (data <$> ws) ∧
    ret !! "dset_name" = Some (VList (collect "dataset" batch)) ∧
    ret !! "session" = Some (VList (collect "session" batch)).
Proof.
  intros H.
  assert (batch ≠ [] ∧ Forall is_record batch ∧ concatenable batch)
    as (Hne & Hrec & Hcat) by (apply collate_fn_returns_iff; eauto).
  destruct (collate_fn_ok batch Hne Hrec Hcat)
    as (ret' & w & H' & Hw & Hrw & Hrd & Hrs & _).
  assert (ret' = ret) as -> by congruence.
  destruct (cat_entries _ _ Hw) as (ws & Hws & _ & Hdata).
  by exists w, ws.
Qed.

(** X4.  Collating two lists of records one after the other: when the two
    lists and their concatenation all collate, the batch of the
    concatenation has the waveform entries of the first batch followed by
    those of the second, and likewise the dataset names and the session
    identifiers. *)
Theorem collate_fn_app batch1 batch2 ret1 ret2 ret :
  collate_fn batch1 = Py.Ok ret1 → collate_fn batch2 = Py.Ok ret2 →
  collate_fn (batch1 ++ batch2) = Py.Ok ret →
  ∃ w1 w2 w names1 names2 ids1 ids2,
    ret1 !! "waveform" = Some (VTensor w1) ∧
    ret2 !! "waveform" = Some (VTensor w2) ∧
    ret !! "waveform" = Some (VTensor w) ∧
    data w = data w1 ++ data w2 ∧
    ret1 !! "dset_name" = Some (VList names1) ∧
    ret2 !! "dset_name" = Some (VList names2) ∧
    ret !! "dset_name" = Some (VList (names1 ++ names2)) ∧
    ret1 !! "session" = Some (VList ids1) ∧
    ret2 !! "session" = Some (VList ids2) ∧
    ret !! "session" = Some (VList (ids1 ++ ids2)).
Proof.
  intros H1 H2 H.
  apply collate_fn_contents in H1 as (w1 & ws1 & Hw1 & Hc1 & Hd1 & Hn1 & Hs1).
  apply collate_fn_contents in H2 as (w2 & ws2 & Hw2 & Hc2 & Hd2 & Hn2 & Hs2).
  apply collate_fn_contents in H as (w & ws & Hw & Hc & Hd & Hn & Hs).
  rewrite !collect_app in *.
  exists w1, w2, w, (collect "dataset" batch1), (collect "dataset" batch2),
    (collect "session" batch1), (collect "session" batch2).
  repeat split; try done.
  rewrite Hc1, Hc2, <- fmap_app in Hc.
  apply fmap_VTensor_inj in Hc. subst ws.
  by rewrite Hd, Hd1, Hd2, fmap_app, concat_app.
Qed.

Lemma loop_body_agree st b b' :
  agree b b' → loop_body st b = loop_body st b'.
Proof.
  intros Hag. unfold loop_body, Py.getitem, append_if_present.
  rewrite (Hag "waveform"), (Hag "dataset"), (Hag "session"), (Hag "vad"),
    (Hag "vad_history"), (Hag "vad_label");
    first [done | unfold read_fields, mandatory_fields; simpl; in_fields].
Qed.

(** X5.  [collate_fn] looks at six keys of a record and at nothing else:
    two lists of records that hold, record by record, the same under
    [waveform], [dataset], [session], [vad], [vad_history] and [vad_label]
    give the same result, batch or exception. *)
Theorem collate_fn_reads_six_keys batch batch' :
  Forall2 agree batch batch' → collate_fn batch = collate_fn batch'.
Proof.
  intros Hag. unfold collate_fn.
  assert (∀ st, loop st batch = loop st batch') as ->; [|done].
  induction Hag as [|b b' batch batch' Hb _ IH]; intros st; simpl; [done|].
  rewrite (loop_body_agree st b b' Hb).
  destruct (loop_body st b'); simpl; [apply IH|done].
Qed.

End CollateMoreFacts.

Lemma collate_fn_key_error_witness :
  Collate.collate_fn (Collate.batch3 ++ CollateKeys.nameless :: Collate.ragged_batch)
  = Py.Raise (Py.KeyError "dataset").
Proof.
  apply (collate_fn_key_error Collate.batch3 CollateKeys.nameless
           Collate.ragged_batch "dataset").
  - exact batch3_records.
  - reflexivity.
Defined.

Lemma collate_fn_keys_witness :
  ∃ ret,
    Collate.collate_fn Collate.batch3 = Py.Ok ret ∧
    (is_Some (ret !! "dataset") ↔
     "dataset" ∈ CollateKeys.batch_fields ∨
     ("dataset" ∈ Collate.optional_fields ∧
      ∃ b, b ∈ Collate.batch3 ∧ is_Some (b !! "dataset"))).
Proof.
  destruct (Collate.collate_fn Collate.batch3) as [ret|e] eqn:E;
    [|by vm_compute in E].
  exists ret. split; [reflexivity|].
  exact (collate_fn_keys Collate.batch3 ret "dataset" E).
Defined.

Lemma collate_fn_app_witness :
  ∃ ret1 ret w1 w names1,
    Collate.collate_fn Collate.batch3 = Py.Ok ret1 ∧
    Collate.collate_fn (Collate.batch3 ++ Collate.batch3) = Py.Ok ret ∧
    ret1 !! "waveform" = Some (Torch.VTensor w1) ∧
    ret !! "waveform" = Some (Torch.VTensor w) ∧
    Torch.data w = Torch.data w1 ++ Torch.data w1 ∧
    ret1 !! "dset_name" = Some (Torch.VList names1) ∧
    ret !! "dset_name" = Some (Torch.VList (names1 ++ names1)).
Proof.
  destruct (Collate.collate_fn Collate.batch3) as [ret1|e] eqn:E1;
    [|by vm_compute in E1].
  destruct (Collate.collate_fn (Collate.batch3 ++ Collate.batch3)) as [ret|e] eqn:E;
    [|by vm_compute in E].
  destruct (collate_fn_app Collate.batch3 Collate.batch3 ret1 ret1 ret E1 E1 E)
    as (w1 & w2 & w & names1 & names2 & ids1 & ids2
        & Hw1 & Hw2 & Hw & Hd & Hn1 & Hn2 & Hn & _).
  assert (w2 = w1) as -> by congruence.
  assert (names2 = names1) as -> by congruence.
  by exists ret1, ret, w1, w, names1.
Defined.

Lemma with_offset_agree (b : gmap string Torch.value) :
  CollateKeys.agree b (CollateKeys.with_offset b).
Proof.
  intros k Hk. unfold CollateKeys.with_offset.
  rewrite lookup_insert_ne; [done|].
  intros <-. unfold CollateKeys.read_fields, CollateKeys.mandatory_fields,
    Collate.optional_fields in Hk. simpl in Hk.
  repeat (apply elem_of_cons in Hk as [Hk|Hk]; [discriminate|]).
  by apply elem_of_nil in Hk.
Qed.

Lemma collate_fn_reads_six_keys_witness :
  Collate.collate_fn Collate.batch3
  = Collate.collate_fn (CollateKeys.with_offset <$> Collate.batch3).
Proof.
  apply (collate_fn_reads_six_keys Collate.batch3
           (CollateKeys.with_offset <$> Collate.batch3)).
  apply Forall2_fmap_r, Forall_Forall2_diag, Forall_forall.
  intros b _. apply with_offset_agree.
Defined.

(* ===================================================================== *)
(** * Stages of [setup], the data loaders and [prepare_data] *)
(* ===================================================================== *)

Section DataModuleMoreFacts.
Context {HFDataset Transform : Type}.
Implicit Types (self : DialogAudioDM.t Transform) (dset : HFDataset)
  (load : list string → string → HFDataset)
  (st : DialogAudioDM.dsets HFDataset Transform).

(** X6.  The stages of [setup] combine: running it for ["fit"] and then
    for ["test"], or the other way round, stores the same three datasets as
    running it once with no stage, whatever was stored before; running it
    twice for the same stage is running it once; and a stage other than
    ["fit"] and ["test"] stores nothing. *)
Theorem setup_stages load self st stage (other : string) :
  DialogAudioDM.setup load self (Some "test")
    (DialogAudioDM.setup load self (Some "fit") st)
    = DialogAudioDM.setup load self None st ∧
  DialogAudioDM.setup load self (Some "fit")
    (DialogAudioDM.setup load self (Some "test") st)
    = DialogAudioDM.setup load self None st ∧
  DialogAudioDM.setup load self stage (DialogAudioDM.setup load self stage st)
    = DialogAudioDM.setup load self stage st ∧
  (other ≠ "fit" → other ≠ "test" →
   DialogAudioDM.setup load self (Some other) st = st).
Proof.
  split; [reflexivity|]. split; [reflexivity|]. split.
  - unfold DialogAudioDM.setup.
    destruct (DialogAudioDM.stage_in stage "fit"),
             (DialogAudioDM.stage_in stage "test"); by destruct st.
  - intros Hfit Htest. unfold DialogAudioDM.setup, DialogAudioDM.stage_in.
    rewrite !bool_decide_eq_false_2 by done. done.
Qed.

(** X7.  The dataset [_dataset] builds does not depend on the data
    module's [datasets], [audio_include_ratio], [audio_context_duration],
    [ipu_min_time], [ipu_pause_time], [vad], [batch_size], [pin_memory] or
    [num_workers]: two data modules that agree on the other fifteen
    attributes build the same dataset, for every split. *)
Theorem dataset_ignores_unforwarded self self' dset split :
  DialogAudioDM.type self = DialogAudioDM.type self' →
  DialogAudioDM.transforms self = DialogAudioDM.transforms self' →
  DialogAudioDM.audio_mono self = DialogAudioDM.audio_mono self' →
  DialogAudioDM.audio_duration self = DialogAudioDM.audio_duration self' →
  DialogAudioDM.sample_rate self = DialogAudioDM.sample_rate self' →
  DialogAudioDM.audio_overlap self = DialogAudioDM.audio_overlap self' →
  DialogAudioDM.audio_normalize self = DialogAudioDM.audio_normalize self' →
  DialogAudioDM.vad_hz self = DialogAudioDM.vad_hz self' →
  DialogAudioDM.vad_horizon self = DialogAudioDM.vad_horizon self' →
  DialogAudioDM.vad_history self = DialogAudioDM.vad_history self' →
  DialogAudioDM.vad_history_times self = DialogAudioDM.vad_history_times self' →
  DialogAudioDM.flip_channels self = DialogAudioDM.flip_channels self' →
  DialogAudioDM.flip_probability self = DialogAudioDM.flip_probability self' →
  DialogAudioDM.mask_vad self = DialogAudioDM.mask_vad self' →
  DialogAudioDM.mask_vad_probability self
    = DialogAudioDM.mask_vad_probability self' →
  DialogAudioDM._dataset self dset split = DialogAudioDM._dataset self' dset split.
Proof.
  intros. destruct self, self'. unfold DialogAudioDM._dataset.
  simpl in *. by subst.
Qed.

(** X8.  After [setup] on a fresh data module, [train_dataloader] and
    [val_dataloader] find their dataset exactly when the stage was ["fit"]
    or none, and [test_dataloader] exactly when it was ["test"] or none;
    for any other stage the dataset attribute does not exist and the call
    raises [AttributeError] before [DataLoader] is called.  When the
    dataset is there, the method returns what the [DataLoader] constructor
    gives for the dataset of the split (["train"], ["val"], ["test"]), the
    module's batch size, [pin_memory], worker count and [collate_fn], and
    [shuffle=True] for the training loader only; whether the constructor
    itself accepts these arguments is PyTorch's matter. *)
Theorem dataloaders_after_setup {Outcome : Type}
    (DataLoader : DataLoaders.loader_args HFDataset Transform → Outcome)
    load self stage :
  let st := DialogAudioDM.setup load self stage (DialogAudioDM.unset HFDataset Transform) in
  let built split :=
    DialogAudioDM._dataset self (load (DialogAudioDM.datasets self) split) split in
  let args ds shuffled :=
    {| DataLoaders.dataset := ds;
       DataLoaders.batch_size := DialogAudioDM.batch_size self;
       DataLoaders.pin_memory := DialogAudioDM.pin_memory self;
       DataLoaders.collate_fn := Collate.collate_fn;
       DataLoaders.num_workers := DialogAudioDM.num_workers self;
       DataLoaders.shuffle := shuffled |} in
  DataLoaders.train_dataloader DataLoader self st
    = (if DialogAudioDM.stage_in stage "fit"
       then inr (DataLoader (args (built "train") true))
       else inl (DataLoaders.AttributeError "train_dset")) ∧
  DataLoaders.val_dataloader DataLoader self st
    = (if DialogAudioDM.stage_in stage "fit"
       then inr (DataLoader (args (built "val") false))
       else inl (DataLoaders.AttributeError "val_dset")) ∧
  DataLoaders.test_dataloader DataLoader self st
    = (if DialogAudioDM.stage_in stage "test"
       then inr (DataLoader (args (built "test") false))
       else inl (DataLoaders.AttributeError "test_dset")).
Proof.
  unfold DialogAudioDM.setup.
  destruct (DialogAudioDM.stage_in stage "fit"),
           (DialogAudioDM.stage_in stage "test"); repeat split.
Qed.

(** X9.  [prepare_data] loads the splits ["train"], ["validation"] and
    ["test"], but [setup] never asks for ["validation"]: it loads its
    validation data under the name ["val"], which [prepare_data] did not
    load, and what the loader returns for ["validation"] has no effect on
    the datasets [setup] stores. *)
Theorem setup_never_loads_validation load load' self stage st :
  (∀ corpora split, split ≠ "validation" → load corpora split = load' corpora split) →
  DialogAudioDM.setup load self stage st = DialogAudioDM.setup load' self stage st ∧
  DataLoaders.prepare_data self
    = [(DialogAudioDM.datasets self, "train");
       (DialogAudioDM.datasets self, "validation");
       (DialogAudioDM.datasets self, "test")] ∧
  (DialogAudioDM.stage_in stage "fit" = true →
   DialogAudioDM.val_dset (DialogAudioDM.setup load self stage st)
     = Some (DialogAudioDM._dataset self
               (load (DialogAudioDM.datasets self) "val") "val") ∧
   (DialogAudioDM.datasets self, "val") ∉ DataLoaders.prepare_data self).
Proof.
  intros Hload. split; [|split; [reflexivity|]].
  - unfold DialogAudioDM.setup.
    rewrite <- !Hload by discriminate. reflexivity.
  - intros Hfit. unfold DialogAudioDM.setup. rewrite Hfit. split.
    + by destruct (DialogAudioDM.stage_in stage "test").
    + unfold DataLoaders.prepare_data. simpl.
      rewrite !elem_of_cons, elem_of_nil.
      intros [[= ?]|[[= ?]|[[= ?]|[]]]].
Qed.

End DataModuleMoreFacts.

Lemma dataset_ignores_unforwarded_witness :
  DialogAudioDM._dataset (DialogAudioDM.defaults ["switchboard"]) tt "train"
  = DialogAudioDM._dataset (DataLoaders.retuned ["fisher"; "callhome"]) tt "train".
Proof.
  apply (dataset_ignores_unforwarded (DialogAudioDM.defaults ["switchboard"])
           (DataLoaders.retuned ["fisher"; "callhome"]) tt "train");
    reflexivity.
Defined.

Lemma setup_never_loads_validation_witness :
  DialogAudioDM.setup DataLoaders.echo_split
    (DialogAudioDM.defaults ["switchboard"]) None (DialogAudioDM.unset string unit)
  = DialogAudioDM.setup DataLoaders.echo_split'
      (DialogAudioDM.defaults ["switchboard"]) None (DialogAudioDM.unset string unit).
Proof.
  apply (setup_never_loads_validation DataLoaders.echo_split DataLoaders.echo_split'
           (DialogAudioDM.defaults ["switchboard"]) None
           (DialogAudioDM.unset string unit)).
  intros corpora split Hsplit. unfold DataLoaders.echo_split'.
  by rewrite bool_decide_eq_false_2.
Defined.

(* ===================================================================== *)
(** * More on [generate]: lists, keys, paths and splits *)
(* ===================================================================== *)

Section GenerateMoreFacts.
Import Swithchboard.
Context {WordDialog Dialog VadList : Type}.
Variable load_transcript : string → string → bool → bool → WordDialog.
Variable extract_vad_list_from_words : WordDialog → Q → VadList.
Variable remove_words_from_dialog : WordDialog → Dialog.

Local Abbreviation generate :=
  (generate load_transcript extract_vad_list_from_words remove_words_from_dialog).
Local Abbreviation example := (@example Dialog VadList).

Implicit Types (self : builder) (rel : gmap string string)
  (item : string * example).

(** X10.  [generate] works through a list front to back: on a list in two
    parts it yields what it yields on the first part and, if that part
    raised nothing, goes on with what it yields on the second; if the first
    part raised, the second is never looked at. *)
Theorem generate_app rel self sessions1 sessions2 :
  generate rel self (sessions1 ++ sessions2)
  = match raised (generate rel self sessions1) with
    | None =>
        Run (yielded (generate rel self sessions1)
               ++ yielded (generate rel self sessions2))
            (raised (generate rel self sessions2))
    | Some _ => generate rel self sessions1
    end.
Proof.
  unfold Swithchboard.generate.
  induction sessions1 as [|s sessions1 IH]; simpl.
  - by destruct (generate_from _ _ _ _ _ sessions2).
  - unfold Py.getitem. destruct (rel !! s) as [rel_path|]; simpl; [|done].
    rewrite IH.
    by destruct (raised (generate_from _ _ _ _ rel sessions1)).
Qed.

(** The keys of the yielded items, and how each item was built. *)
Lemma generate_yielded_inv rel self sessions item :
  item ∈ yielded (generate rel self sessions) →
  item.1 = session item.2 ∧ session item.2 ∈ sessions ∧
  dialog item.2
    = remove_words_from_dialog (loaded load_transcript self (session item.2)) ∧
  ∃ rel_path,
    rel !! session item.2 = Some rel_path ∧
    audio_path item.2
      = OsPath.join2 (root (cfg self)) (rel_path +:+ ext (cfg self)).
Proof.
  unfold Swithchboard.generate.
  induction sessions as [|s sessions IH]; simpl.
  - intros H. by apply elem_of_nil in H.
  - unfold Py.getitem. destruct (rel !! s) as [rel_path|] eqn:Hs; simpl.
    + intros [->|H]%elem_of_cons.
      * simpl. split; [done|]. split; [apply list_elem_of_here|].
        split; [done|]. by exists rel_path.
      * destruct (IH H) as (? & ? & ? & ?).
        split; [done|]. split; [by apply list_elem_of_further|done].
    + intros H. by apply elem_of_nil in H.
Qed.

Lemma generate_keys rel self sessions :
  Forall (λ s, is_Some (rel !! s)) sessions →
  (yielded (generate rel self sessions)).*1 = sessions.
Proof.
  intros H. destruct (generate_all_known load_transcript
    extract_vad_list_from_words remove_words_from_dialog rel self sessions H)
    as (items & -> & Hitems). simpl.
  induction Hitems as [|s item sessions items (Hk & _) _ IH]; simpl; [done|].
  f_equal; [done|]. apply IH. by apply Forall_inv_tail in H.
Qed.

(** X11.  [generate] does not remove repeated sessions: when every session
    of the list is in the index, the keys of the yielded items are the list
    itself, so the keys are pairwise different exactly when no session is
    listed twice. *)
Theorem generate_keys_distinct rel self sessions :
  Forall (λ s, is_Some (rel !! s)) sessions →
  (yielded (generate rel self sessions)).*1 = sessions ∧
  (NoDup (yielded (generate rel self sessions)).*1 ↔ NoDup sessions).
Proof.
  intros H. pose proof (generate_keys rel self sessions H) as Hk.
  split; [done|]. by rewrite Hk.
Qed.

(** X12.  The audio path of a yielded item, by [os.path.join]: when the
    index entry of the session followed by the extension starts with "/",
    it is the audio path and the configured root is not part of it;
    otherwise the audio path is the root, a "/" unless the root is empty or
    ends with one, the index entry and the extension. *)
Theorem generate_audio_path rel self sessions item :
  item ∈ yielded (generate rel self sessions) →
  ∃ rel_path,
    rel !! session item.2 = Some rel_path ∧
    let file := rel_path +:+ ext (cfg self) in
    (OsPath.startswith_sep file = true → audio_path item.2 = file) ∧
    (OsPath.startswith_sep file = false →
     audio_path item.2
       = root (cfg self)
         +:+ (if bool_decide (root (cfg self) = "")
                 || OsPath.endswith_sep (root (cfg self))
              then "" else "/")
         +:+ file).
Proof.
  intros H. apply generate_yielded_inv in H as (_ & _ & _ & rel_path & Hrel & ->).
  exists rel_path. split; [done|]. simpl. unfold OsPath.join2. split.
  - by intros ->.
  - intros ->. by destruct (_ || _).
Qed.

(** X14.  The only way [generate] stops early: if it raised, the
    exception is [KeyError] for a session of the list that the index lacks,
    every session before that one is in the index, and the keys of the
    yielded items are exactly the sessions before it. *)
Theorem generate_raised_inv rel self sessions e :
  raised (generate rel self sessions) = Some e →
  ∃ known bad rest,
    sessions = known ++ bad :: rest ∧
    Forall (λ s, is_Some (rel !! s)) known ∧
    rel !! bad = None ∧
    e = Py.KeyError bad ∧
    (yielded (generate rel self sessions)).*1 = known.
Proof.
  unfold Swithchboard.generate.
  induction sessions as [|s sessions IH]; simpl; [discriminate|].
  unfold Py.getitem. destruct (rel !! s) as [rel_path|] eqn:Hs; simpl.
  - intros H. destruct (IH H) as (known & bad & rest & -> & Hk & Hb & -> & Hkeys).
    exists (s :: known), bad, rest. repeat split; try done.
    + constructor; [by eexists|done].
    + simpl. f_equal. exact Hkeys.
  - intros [= <-]. by exists [], s, sessions.
Qed.


End GenerateMoreFacts.

Lemma generate_keys_distinct_witness :
  (Swithchboard.yielded (Demo.generate ["2001"; "2005"])).*1 = ["2001"; "2005"] ∧
  (NoDup (Swithchboard.yielded (Demo.generate ["2001"; "2005"])).*1
   ↔ NoDup ["2001"; "2005"]).
Proof.
  apply (generate_keys_distinct Demo.load_transcript
           VadExtractor.extract_vad_list_from_words
           VadExtractor.remove_words_from_dialog
           Demo.index Demo.builder ["2001"; "2005"]).
  repeat (apply Forall_cons; split); [| |by apply Forall_nil];
    eexists; reflexivity.
Defined.

Lemma generate_audio_path_witness :
  ∃ item,
    item ∈ Swithchboard.yielded (Demo.generate ["2001"]) ∧
    Swithchboard.audio_path item.2
      = "/data/switchboard/audio/swb1_d1/data/sw02001.wav".
Proof.
  assert (∃ item, item ∈ Swithchboard.yielded (Demo.generate ["2001"]) ∧
                  Swithchboard.session item.2 = "2001") as (item & Hin & Hs).
  { eexists. unfold Demo.generate, Swithchboard.generate. simpl.
    split; [apply list_elem_of_here|reflexivity]. }
  exists item. split; [exact Hin|].
  destruct (generate_audio_path Demo.load_transcript
    VadExtractor.extract_vad_list_from_words
    VadExtractor.remove_words_from_dialog
    Demo.index Demo.builder ["2001"] item Hin) as (rel_path & Hrel & _ & Hpath).
  rewrite Hs in Hrel. injection Hrel as <-.
  exact (Hpath eq_refl).
Defined.


Lemma generate_raised_inv_witness :
  ∃ known bad rest,
    ["2001"; "9999"; "2005"] = known ++ bad :: rest ∧
    Forall (λ s, is_Some (Demo.index !! s)) known ∧
    Demo.index !! bad = None ∧
    Py.KeyError "9999" = Py.KeyError bad ∧
    (Swithchboard.yielded (Demo.generate ["2001"; "9999"; "2005"])).*1 = known.
Proof.
  apply (generate_raised_inv Demo.load_transcript
           VadExtractor.extract_vad_list_from_words
           VadExtractor.remove_words_from_dialog
           Demo.index Demo.builder ["2001"; "9999"; "2005"] (Py.KeyError "9999")).
  reflexivity.
Defined.
